(** * Wish-List server: metadata extraction and item lifecycle

    A shallow embedding of [server.py]: the metadata extractor
    [fetch_metadata] and the request handlers that move wishlist items
    through their lifecycle ([add_item], [delete_item], [mark_purchased],
    [unmark_purchased], [archive_purchased], [restore_item], the two listing
    handlers, [get_user_info] and [set_external_link]).

    Python values are modelled by [pyval]; Python exceptions by the error
    monad [result]; the SQLite database by two lists of rows kept in rowid
    order together with the AUTOINCREMENT counters; the outbound HTTP GET by
    an oracle together with a log of fetched urls.  The libraries the server
    calls (requests, BeautifulSoup's parser, [json.loads], [urlparse]) are
    section variables. *)

From Stdlib Require Import List String Ascii ZArith Bool Lia Sorted Permutation.
From Stdlib Require Import Floats.SpecFloat.
Import ListNotations.
Local Open Scope string_scope.
Local Open Scope Z_scope.

Set Implicit Arguments.
Local Set Warnings "-register-all".

(* ================================================================= *)
(** ** Python values *)

(** The values [json.loads] can return, which are also the values the
    handlers pass to [jsonify].  A [dict] is an association list in
    insertion order (Python dicts iterate in that order); [json.loads] never
    produces two entries with one key. *)
Inductive pyval : Type :=
| PNone
| PBool (b : bool)
| PInt (z : Z)
| PFloat (f : spec_float)
| PStr (s : string)
| PList (l : list pyval)
| PDict (d : list (string * pyval)).

(** Python exceptions raised by the modelled code. *)
Inductive exn : Type :=
| KeyError
| AttributeError
| TypeError
| IndexError
| JSONDecodeError
| ValueError
| InterfaceError
| OverflowError.

(** A computation that returns or raises. *)
Inductive result (A : Type) : Type :=
| Ok (a : A)
| Raise (e : exn).
Arguments Ok {A} a.
Arguments Raise {A} e.

Definition bind {A B} (m : result A) (k : A -> result B) : result B :=
  match m with
  | Ok a => k a
  | Raise e => Raise e
  end.

Notation "x <- m ;; k" := (bind m (fun x => k))
  (at level 61, m at next level, right associativity).

(** [bool(v)]: Python truthiness. *)
Definition truthy (v : pyval) : bool :=
  match v with
  | PNone => false
  | PBool b => b
  | PInt z => negb (z =? 0)
  | PFloat (S754_zero _) => false
  | PFloat _ => true
  | PStr s => negb (s =? EmptyString)%string
  | PList l => match l with [] => false | _ => true end
  | PDict d => match d with [] => false | _ => true end
  end.

Definition str_truthy (o : option string) : bool :=
  match o with
  | Some s => negb (s =? EmptyString)%string
  | None => false
  end.

Definition of_opt_str (o : option string) : pyval :=
  match o with
  | Some s => PStr s
  | None => PNone
  end.

(** [d.get(k)] on the entries of a dict, [None] when the key is missing. *)
Fixpoint assoc {A} (k : string) (d : list (string * A)) : option A :=
  match d with
  | [] => None
  | (k', v) :: rest => if (k =? k')%string then Some v else assoc k rest
  end.

(** [needle in hay] for two [str]: substring test. *)
Fixpoint str_contains (needle hay : string) : bool :=
  String.prefix needle hay ||
  match hay with
  | EmptyString => false
  | String _ rest => str_contains needle rest
  end.

(** The one-character strings a [for] loop over a [str] yields. *)
Fixpoint str_chars (s : string) : list pyval :=
  match s with
  | EmptyString => []
  | String c rest => PStr (String c EmptyString) :: str_chars rest
  end.

Definition is_str (k : string) (v : pyval) : bool :=
  match v with
  | PStr s => (k =? s)%string
  | _ => false
  end.

(** [k in obj] for a string [k]. *)
Definition py_in (k : string) (obj : pyval) : result bool :=
  match obj with
  | PDict d => Ok (match assoc k d with Some _ => true | None => false end)
  | PList l => Ok (existsb (is_str k) l)
  | PStr s => Ok (str_contains k s)
  | _ => Raise TypeError
  end.

(** [obj[k]] for a string [k]. *)
Definition py_getitem (obj : pyval) (k : string) : result pyval :=
  match obj with
  | PDict d => match assoc k d with
               | Some v => Ok v
               | None => Raise KeyError
               end
  | _ => Raise TypeError
  end.

(** [obj.get(k)]: only a dict has the method. *)
Definition py_get (obj : pyval) (k : string) : result pyval :=
  match obj with
  | PDict d => Ok (match assoc k d with Some v => v | None => PNone end)
  | _ => Raise AttributeError
  end.

(** [l[0]]. *)
Definition py_first (l : list pyval) : result pyval :=
  match l with
  | x :: _ => Ok x
  | [] => Raise IndexError
  end.

(** The items a [for] loop visits. *)
Definition py_iter (v : pyval) : result (list pyval) :=
  match v with
  | PList l => Ok l
  | PDict d => Ok (map (fun kv => PStr (fst kv)) d)
  | PStr s => Ok (str_chars s)
  | _ => Raise TypeError
  end.

(** [s.strip()] on ASCII text. *)
Definition is_space (c : ascii) : bool :=
  let n := nat_of_ascii c in
  ((9 <=? n) && (n <=? 13) || (28 <=? n) && (n <=? 32))%nat.

Fixpoint lstrip (s : string) : string :=
  match s with
  | EmptyString => EmptyString
  | String c rest => if is_space c then lstrip rest else s
  end.

Fixpoint rstrip (s : string) : string :=
  match s with
  | EmptyString => EmptyString
  | String c rest =>
      match rstrip rest with
      | EmptyString => if is_space c then EmptyString else String c EmptyString
      | r => String c r
      end
  end.

Definition strip (s : string) : string := rstrip (lstrip s).

(* ================================================================= *)
(** ** The parsed document *)

(** An element of the BeautifulSoup tree: its name, its attribute dict and
    its [.string] ([None] unless the element has exactly one text child). *)
Record tag : Type := Tag {
  tag_name : string;
  tag_attrs : list (string * string);
  tag_string : option string
}.

(** The tree as BeautifulSoup searches it: its elements in document
    order. *)
Definition soup : Type := list tag.

Definition tag_get (t : tag) (k : string) : option string :=
  assoc k (tag_attrs t).

Definition tag_matches (name attr val : string) (t : tag) : bool :=
  (tag_name t =? name)%string &&
  match tag_get t attr with
  | Some v => (v =? val)%string
  | None => false
  end.

(** [soup.find(name, attr=val)]. *)
Definition soup_find (doc : soup) (name attr val : string) : option tag :=
  find (tag_matches name attr val) doc.

(** [soup.find_all(name, attr=val)]. *)
Definition soup_find_all (doc : soup) (name attr val : string) : list tag :=
  filter (tag_matches name attr val) doc.

(** [soup.title]. *)
Definition soup_title (doc : soup) : option tag :=
  find (fun t => (tag_name t =? "title")%string) doc.

(** [a or b] on two optional tags: a [Tag] is always truthy. *)
Definition tag_or (a b : option tag) : option tag :=
  match a with
  | Some t => Some t
  | None => b
  end.

(* ================================================================= *)
(** ** fetch_metadata *)

Section Extractor.

(** [json.loads] on a [str]: [None] when it raises [JSONDecodeError]. *)
Variable json_loads : string -> option pyval.

(** [og(name)]: indexing [tag["content"]] raises when the attribute is
    missing. *)
Definition og (doc : soup) (name : string) : result (option string) :=
  match soup_find doc "meta" "property" ("og:" ++ name) with
  | Some t =>
      match tag_get t "content" with
      | Some c => Ok (Some c)
      | None => Raise KeyError
      end
  | None => Ok None
  end.

(** [og("title") or (soup.title.string.strip() if soup.title else None)]. *)
Definition extract_title (doc : soup) : result (option string) :=
  t <- og doc "title";;
  if str_truthy t then Ok t
  else match soup_title doc with
       | Some el =>
           match tag_string el with
           | Some s => Ok (Some (strip s))
           | None => Raise AttributeError
           end
       | None => Ok None
       end.

(** The tag the three [soup.find] calls joined by [or] select. *)
Definition price_tag (doc : soup) : option tag :=
  tag_or (soup_find doc "meta" "property" "product:price:amount")
    (tag_or (soup_find doc "meta" "property" "og:price:amount")
            (soup_find doc "meta" "itemprop" "price")).

(** The value of [price] after the meta-tag tier. *)
Definition price_tier1 (doc : soup) : pyval :=
  match price_tag doc with
  | Some t => if str_truthy (tag_get t "content")
              then of_opt_str (tag_get t "content")
              else PNone
  | None => PNone
  end.

(** The body of [for obj in objects]: the local variable [price] is
    threaded through; a raise keeps the value it had.  [Ok true] stands for
    a [break]. *)
Definition visit_object (obj : pyval) (price : pyval)
  : result bool * pyval :=
  match py_in "offers" obj with
  | Raise e => (Raise e, price)
  | Ok false => (Ok false, price)
  | Ok true =>
      match py_getitem obj "offers" with
      | Raise e => (Raise e, price)
      | Ok offers =>
          let assigned :=
            match offers with
            | PList l => o <- py_first l;; py_get o "price"
            | PDict _ => py_get offers "price"
            | _ => Ok price
            end in
          match assigned with
          | Raise e => (Raise e, price)
          | Ok p => (Ok (truthy p), p)
          end
      end
  end.

Fixpoint visit_objects (objs : list pyval) (price : pyval)
  : result unit * pyval :=
  match objs with
  | [] => (Ok tt, price)
  | obj :: rest =>
      match visit_object obj price with
      | (Raise e, p) => (Raise e, p)
      | (Ok true, p) => (Ok tt, p)
      | (Ok false, p) => visit_objects rest p
      end
  end.

(** [json.loads(script.string)]: a [None] argument raises [TypeError]. *)
Definition loads_script (script : tag) : result pyval :=
  match tag_string script with
  | None => Raise TypeError
  | Some s =>
      match json_loads s with
      | Some v => Ok v
      | None => Raise JSONDecodeError
      end
  end.

(** The body of the [try] for one script block. *)
Definition try_block (script : tag) (price : pyval) : result unit * pyval :=
  match loads_script script with
  | Raise e => (Raise e, price)
  | Ok data =>
      match data with
      | PDict d =>
          let objects :=
            match assoc "@graph" d with
            | Some g => g
            | None => PList [data]
            end in
          match py_iter objects with
          | Raise e => (Raise e, price)
          | Ok objs => visit_objects objs price
          end
      | _ => (Ok tt, price)
      end
  end.

(** [for script in soup.find_all(...)]: the bare [except] continues with
    the next block; after the [try], a truthy [price] breaks. *)
Fixpoint scan_scripts (scripts : list tag) (price : pyval) : pyval :=
  match scripts with
  | [] => price
  | script :: rest =>
      match try_block script price with
      | (Raise _, p) => scan_scripts rest p
      | (Ok _, p) => if truthy p then p else scan_scripts rest p
      end
  end.

Definition ld_json_scripts (doc : soup) : list tag :=
  soup_find_all doc "script" "type" "application/ld+json".

(** The value of [price] at the [return]. *)
Definition extract_price (doc : soup) : pyval :=
  let price := price_tier1 doc in
  if negb (truthy price) then scan_scripts (ld_json_scripts doc) price
  else price.

Record metadata : Type := Metadata {
  md_title : option string;
  md_description : option string;
  md_image : option string;
  md_price : pyval
}.

Definition no_metadata : metadata := Metadata None None None PNone.

(** [fetch_metadata] from [soup = BeautifulSoup(...)] on. *)
Definition extract (doc : soup) : result metadata :=
  title <- extract_title doc;;
  description <- og doc "description";;
  image <- og doc "image";;
  Ok (Metadata title description image (extract_price doc)).

End Extractor.

(* ================================================================= *)
(** ** The database *)

(** A value as it is bound to the [price] column.  (The column has TEXT
    affinity, so SQLite keeps a bound number as its text; that conversion
    is not modelled.) *)
Inductive sqlval : Type :=
| SNull
| SInt (z : Z)
| SReal (f : spec_float)
| SText (s : string).

(** Binding a Python value to a statement parameter: the sqlite3 module
    accepts [None], integers that fit 64 bits, floats and strings. *)
Definition sql_bind (v : pyval) : result sqlval :=
  match v with
  | PNone => Ok SNull
  | PBool b => Ok (SInt (if b then 1 else 0))
  | PInt z => if (- 2 ^ 63 <=? z) && (z <? 2 ^ 63) then Ok (SInt z)
              else Raise OverflowError
  | PFloat f => Ok (SReal f)
  | PStr s => Ok (SText s)
  | PList _ => Raise InterfaceError
  | PDict _ => Raise InterfaceError
  end.

Definition sql_value (v : sqlval) : pyval :=
  match v with
  | SNull => PNone
  | SInt z => PInt z
  | SReal f => PFloat f
  | SText s => PStr s
  end.

(** A row of table [users]. *)
Record user_row : Type := UserRow {
  u_id : Z;
  u_username : string;
  u_external_link : option string
}.

(** A row of table [items]. *)
Record item_row : Type := ItemRow {
  i_id : Z;
  i_user_id : option Z;
  i_url : string;
  i_title : option string;
  i_description : option string;
  i_image : option string;
  i_price : sqlval;
  i_source : option string;
  i_added_date : option string;
  i_purchased : bool;
  i_archived : bool
}.

(** The state a request runs in.  Each table is the list of its rows in
    rowid order, the order in which SQLite visits them when a statement has
    no ORDER BY; [users_seq] and [items_seq] are the AUTOINCREMENT counters
    of [sqlite_sequence]; [fetched] logs the urls of the HTTP GETs issued so
    far, latest first. *)
Record world : Type := World {
  users : list user_row;
  users_seq : Z;
  items : list item_row;
  items_seq : Z;
  fetched : list string
}.

Definition set_items (st : world) (rows : list item_row) : world :=
  World (users st) (users_seq st) rows (items_seq st) (fetched st).

Definition set_users (st : world) (rows : list user_row) : world :=
  World rows (users_seq st) (items st) (items_seq st) (fetched st).

(** The rowid AUTOINCREMENT gives to a new row: one more than the largest
    rowid the table has ever held. *)
Definition next_rowid (seq : Z) (ids : list Z) : Z :=
  Z.max seq (fold_right Z.max 0 ids) + 1.

(** [col = ?] where column or parameter may be NULL: NULL equals
    nothing. *)
Definition sql_eq_int (col p : option Z) : bool :=
  match col, p with
  | Some c, Some v => c =? v
  | _, _ => false
  end.

Definition sql_eq_text (col : string) (p : option string) : bool :=
  match p with
  | Some v => (col =? v)%string
  | None => false
  end.

(** [WHERE user_id = ? AND url = ?]. *)
Definition key_matches (user_id : option Z) (url : option string)
    (r : item_row) : bool :=
  sql_eq_int (i_user_id r) user_id && sql_eq_text (i_url r) url.

(** [UPDATE items SET ... WHERE ...]: the rows the condition selects are
    rewritten where they stand. *)
Definition sql_update (cond : item_row -> bool) (f : item_row -> item_row)
    (rows : list item_row) : list item_row :=
  map (fun r => if cond r then f r else r) rows.

(** [DELETE FROM items WHERE ...]. *)
Definition sql_delete (cond : item_row -> bool) (rows : list item_row)
    : list item_row :=
  filter (fun r => negb (cond r)) rows.

(** [cursor.rowcount] after an UPDATE. *)
Definition rowcount (cond : item_row -> bool) (rows : list item_row) : nat :=
  List.length (filter cond rows).

Definition set_purchased (b : bool) (r : item_row) : item_row :=
  ItemRow (i_id r) (i_user_id r) (i_url r) (i_title r) (i_description r)
    (i_image r) (i_price r) (i_source r) (i_added_date r) b (i_archived r).

Definition set_archived (b : bool) (r : item_row) : item_row :=
  ItemRow (i_id r) (i_user_id r) (i_url r) (i_title r) (i_description r)
    (i_image r) (i_price r) (i_source r) (i_added_date r) (i_purchased r) b.

Definition set_added_date (d : string) (r : item_row) : item_row :=
  ItemRow (i_id r) (i_user_id r) (i_url r) (i_title r) (i_description r)
    (i_image r) (i_price r) (i_source r) (Some d) (i_purchased r)
    (i_archived r).

(** [SET archived = 0, purchased = 0]. *)
Definition reactivate (r : item_row) : item_row :=
  set_archived false (set_purchased false r).

(** [SET archived = 0, purchased = 0, added_date = ?]. *)
Definition reactivate_on (today : string) (r : item_row) : item_row :=
  set_added_date today (reactivate r).

(** [get_user_id(username, create)]. *)
Definition get_user_id (st : world) (username : string) (create : bool)
    : world * option Z :=
  match find (fun u => (u_username u =? username)%string) (users st) with
  | Some u => (st, Some (u_id u))
  | None =>
      if create then
        let id := next_rowid (users_seq st) (map u_id (users st)) in
        (World (users st ++ [UserRow id username None]) id
               (items st) (items_seq st) (fetched st),
         Some id)
      else (st, None)
  end.

(* ================================================================= *)
(** ** The request handlers *)

(** What a handler returns: the status code and the value given to
    [jsonify]. *)
Record response : Type := Response {
  status_code : Z;
  body : pyval
}.

Definition status_only (code : Z) (status : string) : response :=
  Response code (PDict [("status", PStr status)]).

(** The dict a listing builds from a row. *)
Definition item_dict (r : item_row) : pyval :=
  PDict [("url", PStr (i_url r));
         ("title", of_opt_str (i_title r));
         ("description", of_opt_str (i_description r));
         ("image", of_opt_str (i_image r));
         ("price", sql_value (i_price r));
         ("source", of_opt_str (i_source r));
         ("added", of_opt_str (i_added_date r));
         ("purchased", PInt (if i_purchased r then 1 else 0))].

(** [SELECT ... WHERE user_id = ? AND archived = ? ORDER BY id DESC]. *)
Definition select_items (st : world) (user_id : option Z) (archived : bool)
    : list item_row :=
  rev (filter (fun r => sql_eq_int (i_user_id r) user_id
                        && Bool.eqb (i_archived r) archived) (items st)).

Definition get_wishlist (st : world) (username : string)
    : world * result response :=
  let (st1, user_id) := get_user_id st username true in
  (st1, Ok (Response 200 (PList (map item_dict (select_items st1 user_id false))))).

Definition get_archive_items (st : world) (username : string)
    : world * result response :=
  let (st1, user_id) := get_user_id st username true in
  (st1, Ok (Response 200 (PList (map item_dict (select_items st1 user_id true))))).

Section Handlers.

Variable json_loads : string -> option pyval.

(** [requests.get] followed by [raise_for_status]: the text of the page, or
    [None] when either raises.  The answer may depend on the requests made
    before. *)
Variable http_get : list string -> string -> option string.

(** [BeautifulSoup(text, "html.parser")]. *)
Variable html_parser : string -> soup.

(** [urlparse(url).netloc]: [None] when [urlparse] raises [ValueError],
    as it does on a url with an unbalanced bracket. *)
Variable netloc : string -> option string.

(** [fetch_metadata(url)]: one GET, logged in the state. *)
Definition fetch_metadata (st : world) (url : string)
    : world * result metadata :=
  let st1 := World (users st) (users_seq st) (items st) (items_seq st)
                   (url :: fetched st) in
  match http_get (fetched st) url with
  | None => (st1, Ok no_metadata)
  | Some text => (st1, extract json_loads (html_parser text))
  end.

(** [add_item]; [today] is [date.today().isoformat()]. *)
Definition add_item (today : string) (st : world) (username : string)
    (url : option string) : world * result response :=
  if negb (str_truthy url) then
    (st, Ok (Response 400 (PDict [("status", PStr "error");
                                  ("message", PStr "No URL provided")])))
  else
    let (st1, user_id) := get_user_id st username true in
    match find (key_matches user_id url) (items st1) with
    | Some row =>
        if i_archived row then
          let st2 := set_items st1
                       (sql_update (fun r => i_id r =? i_id row)
                                   (reactivate_on today) (items st1)) in
          match find (fun r => i_id r =? i_id row) (items st2) with
          | Some r => (st2, Ok (Response 200 (PDict [("status", PStr "restored");
                                                     ("title", of_opt_str (i_title r))])))
          | None => (st2, Raise TypeError)
          end
        else (st1, Ok (status_only 200 "exists"))
    | None =>
        let u := match url with Some u => u | None => EmptyString end in
        match fetch_metadata st1 u with
        | (st2, Raise e) => (st2, Raise e)
        | (st2, Ok md) =>
            match netloc u with
            | None => (st2, Raise ValueError)
            | Some host =>
                match sql_bind (md_price md) with
                | Raise e => (st2, Raise e)
                | Ok price =>
                    let id := next_rowid (items_seq st2)
                                         (map i_id (items st2)) in
                    let row := ItemRow id user_id u (md_title md)
                                 (md_description md) (md_image md) price
                                 (Some host) (Some today) false false in
                    (World (users st2) (users_seq st2) (items st2 ++ [row]) id
                           (fetched st2),
                     Ok (Response 200
                           (PDict [("status", PStr "added");
                                   ("title", of_opt_str (md_title md))])))
                end
            end
        end
    end.

Definition delete_item (st : world) (username : string) (url : option string)
    : world * result response :=
  let (st1, user_id) := get_user_id st username true in
  (set_items st1 (sql_delete (key_matches user_id url) (items st1)),
   Ok (status_only 200 "deleted")).

Definition mark_purchased (st : world) (username : string)
    (url : option string) : world * result response :=
  let (st1, user_id) := get_user_id st username true in
  (set_items st1 (sql_update (key_matches user_id url) (set_purchased true)
                             (items st1)),
   Ok (status_only 200 "marked")).

Definition unmark_purchased (st : world) (username : string)
    (url : option string) : world * result response :=
  let (st1, user_id) := get_user_id st username true in
  (set_items st1 (sql_update (key_matches user_id url) (set_purchased false)
                             (items st1)),
   Ok (status_only 200 "unmarked")).

(** [WHERE user_id = ? AND purchased = 1 AND archived = 0]. *)
Definition to_archive (user_id : option Z) (r : item_row) : bool :=
  sql_eq_int (i_user_id r) user_id && i_purchased r && negb (i_archived r).

Definition archive_purchased (st : world) (username : string)
    : world * result response :=
  let (st1, user_id) := get_user_id st username true in
  (set_items st1 (sql_update (to_archive user_id) (set_archived true)
                             (items st1)),
   Ok (Response 200
         (PDict [("status", PStr "archived");
                 ("count", PInt (Z.of_nat (rowcount (to_archive user_id)
                                                    (items st1))))]))).

(** [WHERE user_id = ? AND url = ? AND archived = 0]. *)
Definition active_match (user_id : option Z) (url : option string)
    (r : item_row) : bool :=
  key_matches user_id url r && negb (i_archived r).

Definition restore_item (st : world) (username : string)
    (url : option string) : world * result response :=
  let (st1, user_id) := get_user_id st username true in
  match find (active_match user_id url) (items st1) with
  | Some _ => (st1, Ok (status_only 400 "exists_active"))
  | None =>
      (set_items st1 (sql_update (key_matches user_id url) reactivate
                                 (items st1)),
       Ok (status_only 200 "restored"))
  end.

(** [if not user_id]: [None] and [0] are both falsy. *)
Definition id_truthy (user_id : option Z) : bool :=
  match user_id with
  | Some v => negb (v =? 0)
  | None => false
  end.

Definition get_user_info (st : world) (username : string)
    : world * result response :=
  let (st1, user_id) := get_user_id st username false in
  if negb (id_truthy user_id) then (st1, Ok (Response 404 (PDict [])))
  else
    match find (fun u => sql_eq_int (Some (u_id u)) user_id) (users st1) with
    | Some row =>
        (st1, Ok (Response 200
                    (PDict [("external_link",
                             of_opt_str (u_external_link row))])))
    | None => (st1, Raise TypeError)
    end.

Definition set_external_link (st : world) (username : string)
    (link : option string) : world * result response :=
  let (st1, user_id) := get_user_id st username true in
  (set_users st1
     (map (fun u => if sql_eq_int (Some (u_id u)) user_id
                    then UserRow (u_id u) (u_username u) link
                    else u) (users st1)),
   Ok (Response 200 (PDict [("status", PStr "updated");
                            ("link", of_opt_str link)]))).

(** The operations of the JSON API, with the username of the route and
    the fields read from the request body. *)
Inductive request : Type :=
| GetWishlist (username : string)
| GetArchiveItems (username : string)
| AddItem (username : string) (url : option string)
| DeleteItem (username : string) (url : option string)
| MarkPurchased (username : string) (url : option string)
| UnmarkPurchased (username : string) (url : option string)
| ArchivePurchased (username : string)
| RestoreItem (username : string) (url : option string)
| GetUserInfo (username : string)
| SetExternalLink (username : string) (link : option string).

Definition request_username (req : request) : string :=
  match req with
  | GetWishlist u | GetArchiveItems u | AddItem u _ | DeleteItem u _
  | MarkPurchased u _ | UnmarkPurchased u _ | ArchivePurchased u
  | RestoreItem u _ | GetUserInfo u | SetExternalLink u _ => u
  end.

(** Routing of one request on the day [today]. *)
Definition handle (today : string) (st : world) (req : request)
    : world * result response :=
  match req with
  | GetWishlist u => get_wishlist st u
  | GetArchiveItems u => get_archive_items st u
  | AddItem u url => add_item today st u url
  | DeleteItem u url => delete_item st u url
  | MarkPurchased u url => mark_purchased st u url
  | UnmarkPurchased u url => unmark_purchased st u url
  | ArchivePurchased u => archive_purchased st u
  | RestoreItem u url => restore_item st u url
  | GetUserInfo u => get_user_info st u
  | SetExternalLink u link => set_external_link st u link
  end.

End Handlers.

(* ================================================================= *)
(** ** Extraction: the price of a document as the specification words it *)

Definition nonempty (v : pyval) : option pyval :=
  if truthy v then Some v else None.



(** The price an offer carries. *)
Definition offer_price (o : pyval) : pyval :=
  match o with
  | PDict d => match assoc "price" d with Some v => v | None => PNone end
  | _ => PNone
  end.

(** The price a candidate yields: that of the first element of a list
    [offers], that of a single-object [offers]. *)
Definition candidate_price (c : pyval) : pyval :=
  match c with
  | PDict d =>
      match assoc "offers" d with
      | Some (PList (o :: _)) => offer_price o
      | Some (PDict o) => offer_price (PDict o)
      | _ => PNone
      end
  | _ => PNone
  end.

(** A candidate on which the loop body raises: one that is no dict, list or
    string, a list holding the string offers, a string containing it, or a
    dict whose [offers] is an empty list or a list headed by a non-object. *)
Definition faulty (c : pyval) : bool :=
  match c with
  | PDict d =>
      match assoc "offers" d with
      | Some (PList []) => true
      | Some (PList (PDict _ :: _)) => false
      | Some (PList (_ :: _)) => true
      | _ => false
      end
  | PList l => existsb (is_str "offers") l
  | PStr s => str_contains "offers" s
  | _ => true
  end.

(** The candidates standing before the first faulty one. *)
Fixpoint sound_prefix (cs : list pyval) : list pyval :=
  match cs with
  | [] => []
  | c :: rest => if faulty c then [] else c :: sound_prefix rest
  end.

Section PriceSpec.

Variable json_loads : string -> option pyval.

(** The candidates of a block as the specification words them: the elements
    of a [@graph] array, otherwise the object itself. *)
Definition spec_candidates (script : tag) : list pyval :=
  match tag_string script with
  | None => []
  | Some s =>
      match json_loads s with
      | Some (PDict d) =>
          match assoc "@graph" d with
          | Some (PList l) => l
          | _ => [PDict d]
          end
      | _ => []
      end
  end.

(** The JSON-LD price as the specification words it: the first non-empty
    price over all candidates of all blocks, in document order. *)
Definition spec_jsonld_price (doc : soup) : option pyval :=
  find truthy (flat_map (fun s => map candidate_price (spec_candidates s))
                        (ld_json_scripts doc)).

(** The candidates of a block: the elements of a [@graph] array; none when
    [@graph] is present and no array; the object itself when it has no
    [@graph]. *)
Definition block_candidates (script : tag) : list pyval :=
  match tag_string script with
  | None => []
  | Some s =>
      match json_loads s with
      | Some (PDict d) =>
          match assoc "@graph" d with
          | Some (PList l) => l
          | Some _ => []
          | None => [PDict d]
          end
      | _ => []
      end
  end.

(** The first non-empty price over the blocks in document order, where a
    block offers its candidates up to the first faulty one. *)
Definition jsonld_price (doc : soup) : option pyval :=
  find truthy
    (flat_map (fun s => map candidate_price (sound_prefix (block_candidates s)))
              (ld_json_scripts doc)).

(** A block all of whose candidates are objects with a well-shaped
    [offers]. *)
Definition regular_block (script : tag) : bool :=
  forallb (fun c => match c with PDict _ => negb (faulty c) | _ => false end)
          (spec_candidates script)
  && match tag_string script with
     | Some s =>
         match json_loads s with
         | Some (PDict d) =>
             match assoc "@graph" d with
             | Some (PList _) | None => true
             | Some _ => false
             end
         | _ => true
         end
     | None => true
     end.

End PriceSpec.

(** What holds of [price] when a loop ends: after a raise it is still
    empty. *)
Definition raised_empty (r : result unit) (p : pyval) : Prop :=
  match r with
  | Raise _ => truthy p = false
  | Ok _ => True
  end.

(* ================================================================= *)
(** ** Sample documents *)

Definition meta (attr val : string) (content : option string) : tag :=
  Tag "meta"
      ((attr, val) :: match content with
                      | Some c => [("content", c)]
                      | None => []
                      end)
      None.

Definition ld_json (text : string) : tag :=
  Tag "script" [("type", "application/ld+json")] (Some text).


(** An [og:title] element without a content attribute. *)
Definition doc_bare_og_title : soup :=
  [meta "property" "og:title" None].

(** A title element without text. *)
Definition doc_empty_title : soup :=
  [Tag "title" [] None].

Definition dq : string := String (ascii_of_nat 34) EmptyString.

Definition quoted (s : string) : string := dq ++ s ++ dq.

(** The text [{"@graph":[{"offers":{"price":"42.00"}}]}]. *)
Definition graph_text : string :=
  "{" ++ quoted "@graph" ++ ":[{" ++ quoted "offers" ++ ":{"
      ++ quoted "price" ++ ":" ++ quoted "42.00" ++ "}}]}".

Definition graph_value : pyval :=
  PDict [("@graph",
          PList [PDict [("offers", PDict [("price", PStr "42.00")])]])].

(** The text [{"@graph":[{"offers":[]},{"offers":{"price":"42.00"}}]}]. *)
Definition empty_offers_text : string :=
  "{" ++ quoted "@graph" ++ ":[{" ++ quoted "offers" ++ ":[]},{"
      ++ quoted "offers" ++ ":{" ++ quoted "price" ++ ":" ++ quoted "42.00"
      ++ "}}]}".

Definition empty_offers_value : pyval :=
  PDict [("@graph",
          PList [PDict [("offers", PList [])];
                 PDict [("offers", PDict [("price", PStr "42.00")])]])].

(** The text [{"@graph":[null,{"offers":{"price":"42.00"}}]}]. *)
Definition null_candidate_text : string :=
  "{" ++ quoted "@graph" ++ ":[null,{" ++ quoted "offers" ++ ":{"
      ++ quoted "price" ++ ":" ++ quoted "42.00" ++ "}}]}".

Definition null_candidate_value : pyval :=
  PDict [("@graph",
          PList [PNone;
                 PDict [("offers", PDict [("price", PStr "42.00")])]])].

(** [json.loads] on the sample texts; any other text of the samples is no
    JSON. *)
Definition sample_loads (s : string) : option pyval :=
  if (s =? graph_text)%string then Some graph_value
  else if (s =? empty_offers_text)%string then Some empty_offers_value
  else if (s =? null_candidate_text)%string then Some null_candidate_value
  else None.

Definition doc_graph : soup := [ld_json "{not json"; ld_json graph_text].

Definition doc_empty_offers : soup := [ld_json empty_offers_text].

Definition doc_null_candidate : soup := [ld_json null_candidate_text].

(** A [product:price:amount] element and a JSON-LD price. *)
Definition doc_meta_and_jsonld : soup :=
  [meta "property" "product:price:amount" (Some "19.99");
   ld_json graph_text].

(* ================================================================= *)
(** ** Reading a response, comparing rows *)

(** The [status] field of a JSON answer. *)
Definition response_status (r : response) : option string :=
  match body r with
  | PDict d => match assoc "status" d with
               | Some (PStr s) => Some s
               | _ => None
               end
  | _ => None
  end.



(** The tables as SQLite keeps them: along each list the rowids increase
    strictly, so that they are unique and the first row of a scan is the one
    with the lowest id. *)
Definition rowid_ordered (st : world) : Prop :=
  StronglySorted Z.lt (map u_id (users st)) /\
  StronglySorted Z.lt (map i_id (items st)).

(* ================================================================= *)
(** ** Sample states *)

Definition sample_item (id : Z) (url : string) (title : string)
    (purchased archived : bool) : item_row :=
  ItemRow id (Some 1) url (Some title) None None SNull
          (Some "shop.example") (Some "2024-01-01") purchased archived.

Definition alice : user_row := UserRow 1 "alice" None.

Definition lamp_url : string := "http://shop.example/lamp".

Definition kettle_row : item_row :=
  sample_item 1 "http://shop.example/kettle" "Kettle" false false.

Definition lamp_row : item_row := sample_item 2 lamp_url "Lamp" true true.

(** An archived row alone under its key. *)
Definition world_archived : world :=
  World [alice] 1
        [kettle_row; lamp_row]
        2 [].


(** A purchased active row, an unpurchased active row and a purchased
    archived row. *)
Definition world_abc : world :=
  World [alice] 1
        [sample_item 1 "http://shop.example/a" "A" true false;
         sample_item 2 "http://shop.example/b" "B" false false;
         sample_item 3 "http://shop.example/c" "C" true true]
        3 [].

(** A page whose only element is an [og:title] without content, and the
    tree the parser builds from it. *)
Definition bare_page : string := "<meta property=og:title>".

Definition serves_bare_page (_ : list string) (_ : string) : option string :=
  Some bare_page.

Definition parses_bare_page (_ : string) : soup := doc_bare_og_title.

(** A network on which every request fails. *)
Definition offline (_ : list string) (_ : string) : option string := None.

Definition no_parser (_ : string) : soup := [].

(** The host of an absolute url without brackets: the text between the two
    slashes and the next slash. *)
Fixpoint after_slashes (s : string) : string :=
  match s with
  | EmptyString => EmptyString
  | String c rest =>
      match rest with
      | String c' rest' =>
          if (c =? "/")%char && (c' =? "/")%char then rest'
          else after_slashes rest
      | EmptyString => EmptyString
      end
  end.

Fixpoint until_slash (s : string) : string :=
  match s with
  | EmptyString => EmptyString
  | String c rest =>
      if (c =? "/")%char then EmptyString else String c (until_slash rest)
  end.

Definition sample_netloc (url : string) : option string :=
  Some (until_slash (after_slashes url)).

(* ================================================================= *)
(** ** The page route and the administrator's endpoints *)

(** What the route [/<username>] answers. *)
Inductive page : Type :=
| EmptyNotFound          (* [("", 404)] *)
| UserNotFound           (* the "User not found" text, 404 *)
| IndexHtml.             (* [send_from_directory(base_dir, "index.html")] *)

(** [user_wishlist(username)]. *)
Definition user_wishlist (st : world) (username : string) : world * page :=
  if (username =? "favicon.ico")%string then (st, EmptyNotFound)
  else
    let (st1, user_id) := get_user_id st username false in
    if negb (id_truthy user_id) then (st1, UserNotFound)
    else (st1, IndexHtml).

Definition error_response (code : Z) (message : string) : response :=
  Response code (PDict [("status", PStr "error"); ("message", PStr message)]).

(** [a == b] on two values that are [None] or a [str]. *)
Definition opt_str_eqb (a b : option string) : bool :=
  match a, b with
  | Some x, Some y => (x =? y)%string
  | None, None => true
  | _, _ => false
  end.

(** What [admin_page] answers to a POST. *)
Inductive login_reply : Type :=
| RedirectToAdmin
| InvalidPassword.

(** The POST branch of [admin_page]: [admin_pass] is
    [os.environ.get("ADMIN_PASSWORD")], [password] the form field, [session]
    the flag [admin_logged_in] of the session.  (The GET branch renders
    templates that are no part of the source.) *)
Definition admin_page_post (admin_pass password : option string)
    (session : bool) : bool * login_reply :=
  if str_truthy admin_pass && opt_str_eqb password admin_pass
  then (true, RedirectToAdmin)
  else (session, InvalidPassword).

(** [admin_delete_user]: [username] is the field of the request body. *)
Definition admin_delete_user (session : bool) (st : world)
    (username : option string) : world * result response :=
  if negb session then (st, Ok (error_response 403 "Unauthorized"))
  else
    match find (fun u => sql_eq_text (u_username u) username) (users st) with
    | None => (st, Ok (error_response 404 "User not found"))
    | Some row =>
        let user_id := u_id row in
        (World (filter (fun u => negb (u_id u =? user_id)) (users st))
               (users_seq st)
               (filter (fun r => negb (sql_eq_int (i_user_id r) (Some user_id)))
                       (items st))
               (items_seq st) (fetched st),
         Ok (status_only 200 "deleted"))
    end.

(** [admin_add_user]. *)
Definition admin_add_user (session : bool) (st : world)
    (username : option string) : world * result response :=
  if negb session then (st, Ok (error_response 403 "Unauthorized"))
  else
    match username with
    | Some name =>
        if negb (str_truthy username)
        then (st, Ok (error_response 400 "Username required"))
        else
          let (st1, _) := get_user_id st name true in
          (st1, Ok (Response 200 (PDict [("status", PStr "added");
                                         ("username", PStr name)])))
    | None => (st, Ok (error_response 400 "Username required"))
    end.

(** [admin_logout]: the flag is popped from the session. *)
Definition admin_logout (session : bool) : bool * response :=
  (false, status_only 200 "logged_out").

(** The requests of the administrator. *)
Inductive admin_request : Type :=
| AdminLogin (password : option string)
| AdminLogout
| AdminAddUser (username : option string)
| AdminDeleteUser (username : option string).

(** A request of either kind. *)
Inductive any_request : Type :=
| Api (today : string) (req : request)
| Admin (req : admin_request).

Section Server.

Variable json_loads : string -> option pyval.
Variable http_get : list string -> string -> option string.
Variable html_parser : string -> soup.
Variable netloc : string -> option string.

(** [os.environ.get("ADMIN_PASSWORD")]. *)
Variable admin_pass : option string.

(** One request against the session flag and the database. *)
Definition step (s : bool * world) (req : any_request) : bool * world :=
  let (session, st) := s in
  match req with
  | Api today r =>
      (session, fst (handle json_loads http_get html_parser netloc today st r))
  | Admin (AdminLogin password) =>
      (fst (admin_page_post admin_pass password session), st)
  | Admin AdminLogout => (fst (admin_logout session), st)
  | Admin (AdminAddUser username) =>
      (session, fst (admin_add_user session st username))
  | Admin (AdminDeleteUser username) =>
      (session, fst (admin_delete_user session st username))
  end.

(** A sequence of requests, one after the other. *)
Definition run (s : bool * world) (reqs : list any_request) : bool * world :=
  fold_left step reqs s.

End Server.

(* ================================================================= *)
(** ** What the tables keep *)

Definition user_key (u : user_row) : Z * string := (u_id u, u_username u).

Definition item_key (r : item_row) : Z * option Z * string :=
  (i_id r, i_user_id r, i_url r).

(** The UNIQUE constraint on [users.username]. *)
Definition usernames_unique (st : world) : Prop :=
  NoDup (map u_username (users st)).

(** Rowids are positive and never above the AUTOINCREMENT counter of their
    table. *)
Definition seq_bounded (st : world) : Prop :=
  (forall u, In u (users st) -> 0 < u_id u <= users_seq st) /\
  (forall r, In r (items st) -> 0 < i_id r <= items_seq st).

(** Every item belongs to a user of the table. *)
Definition no_orphans (st : world) : Prop :=
  forall r, In r (items st) ->
  exists u, In u (users st) /\ i_user_id r = Some (u_id u).

(** The rows a request by [user_id] may touch. *)
Definition owned_by (user_id : option Z) (r : item_row) : bool :=
  sql_eq_int (i_user_id r) user_id.

(** An administrator's request that cannot open a session: anything but a
    login with the configured password. *)
Definition no_login (admin_pass : option string) (req : any_request) : bool :=
  match req with
  | Admin (AdminLogin password) =>
      negb (str_truthy admin_pass && opt_str_eqb password admin_pass)
  | _ => true
  end.

(** A second user with an item of her own. *)
Definition bob : user_row := UserRow 2 "bob" (Some "http://bob.example").

Definition world_two_users : world :=
  World [alice; bob] 2
        [kettle_row; lamp_row;
         ItemRow 3 (Some 2) lamp_url (Some "Lamp") None None SNull
                 (Some "shop.example") (Some "2024-01-05") false false]
        3 [].

(** A run in which the administrator logs in and deletes a user between
    requests of the API. *)
Definition sample_password : option string := Some "secret".

Definition sample_requests : list any_request :=
  [Api "2024-02-02" (AddItem "carol" (Some lamp_url));
   Admin (AdminLogin (Some "secret"));
   Admin (AdminDeleteUser (Some "alice"));
   Api "2024-02-03" (MarkPurchased "bob" (Some lamp_url));
   Admin (AdminAddUser (Some "alice"))].

(** The same requests with a wrong password. *)
Definition locked_out_requests : list any_request :=
  [Api "2024-02-02" (AddItem "carol" (Some lamp_url));
   Admin (AdminLogin (Some "guess"));
   Admin (AdminDeleteUser (Some "alice"));
   Admin (AdminAddUser (Some "dave"))].

(** [urlparse(url).netloc] with the check [urlsplit] makes on the host: a
    host with one bracket and not the other raises [ValueError]. *)
Definition checked_netloc (url : string) : option string :=
  let host := until_slash (after_slashes url) in
  if xorb (str_contains "[" host) (str_contains "]" host) then None
  else Some host.

(** A url with an opening bracket that is never closed. *)
Definition bracket_url : string := "http://[shop.example/lamp".

(* ================================================================= *)
(** * Properties of the extractor *)

Local Open Scope list_scope.
Unset Implicit Arguments.

Section ExtractorFacts.

Variable json_loads : string -> option pyval.

Lemma extract_price_of_extract (doc : soup) (md : metadata) :
  extract json_loads doc = Ok md ->
  md_price md = extract_price json_loads doc.
Proof.
  unfold extract, bind.
  destruct (extract_title doc); try discriminate.
  destruct (og doc "description"); try discriminate.
  destruct (og doc "image"); try discriminate.
  intros H; injection H as <-; reflexivity.
Qed.

(** The price is computed whenever the three Open-Graph lookups and the
    title fallback return. *)
Lemma extract_returns (doc : soup) (t d i : option string) :
  extract_title doc = Ok t ->
  og doc "description" = Ok d ->
  og doc "image" = Ok i ->
  extract json_loads doc = Ok (Metadata t d i (extract_price json_loads doc)).
Proof.
  intros Ht Hd Hi; unfold extract; rewrite Ht, Hd, Hi; reflexivity.
Qed.

Lemma price_tier1_shape (doc : soup) :
  price_tier1 doc = PNone \/
  exists c, c <> EmptyString /\ price_tier1 doc = PStr c.
Proof.
  unfold price_tier1.
  destruct (price_tag doc) as [t|]; [|now left].
  destruct (tag_get t "content") as [c|] eqn:Hc; simpl; [|now left].
  destruct (String.eqb_spec c EmptyString); simpl; [now left|].
  right; exists c; split; auto.
Qed.






End ExtractorFacts.



(** C3: [extract] raises on an [og:title] element that lacks a content
    attribute, and on a title element without text. *)
Theorem extract_raises_on_bare_tags (json_loads : string -> option pyval) :
  extract json_loads doc_bare_og_title = Raise KeyError /\
  extract json_loads doc_empty_title = Raise AttributeError.
Proof. split; reflexivity. Qed.

(* ================================================================= *)
(** * The JSON-LD scan *)

Section ScanFacts.

Variable json_loads : string -> option pyval.

Lemma nonempty_falsy (v : pyval) : truthy v = false -> nonempty v = None.
Proof. unfold nonempty; intros ->; reflexivity. Qed.

Lemma nonempty_truthy (v : pyval) : truthy v = true -> nonempty v = Some v.
Proof. unfold nonempty; intros ->; reflexivity. Qed.

(** One pass of the loop body: a faulty candidate raises and leaves [price]
    as it was; any other candidate returns, and the new [price] is non-empty
    exactly when the candidate yields a non-empty price. *)
Lemma visit_object_faulty (obj price : pyval) :
  faulty obj = true ->
  exists e, visit_object obj price = (Raise e, price).
Proof.
  unfold visit_object, faulty.
  destruct obj as [| b | z | f | s | l | d]; simpl;
    try (intros _; solve [eauto]).
  - intros ->; eauto.
  - intros ->; eauto.
  - destruct (assoc "offers" d) as [offers|]; [|discriminate].
    destruct offers as [| | | | | [|o l'] |]; try discriminate.
    + intros _; simpl; eauto.
    + destruct o; try discriminate; intros _; simpl; eauto.
Qed.

Lemma visit_object_sound (obj price : pyval) :
  faulty obj = false -> truthy price = false ->
  exists p, visit_object obj price = (Ok (truthy p), p) /\
            nonempty p = nonempty (candidate_price obj).
Proof.
  unfold visit_object, faulty, candidate_price; intros Hf Hp.
  destruct obj as [| b | z | f | s | l | d]; simpl in *; try discriminate.
  - rewrite Hf; exists price; rewrite Hp; split; [reflexivity|].
    now rewrite nonempty_falsy.
  - rewrite Hf; exists price; rewrite Hp; split; [reflexivity|].
    now rewrite nonempty_falsy.
  - destruct (assoc "offers" d) as [offers|].
    + destruct offers as [| b | z | f | s | [|o l'] | d']; simpl;
        try discriminate;
        try (exists price; split; [reflexivity|now rewrite nonempty_falsy]).
      * destruct o; try discriminate; simpl; eauto.
      * eauto.
    + exists price; rewrite Hp; split; [reflexivity|].
      now rewrite nonempty_falsy.
Qed.

(** The inner loop: the first non-empty price among the candidates that
    precede the first faulty one. *)
Lemma visit_objects_sound (objs : list pyval) :
  forall price, truthy price = false ->
  exists r p,
    visit_objects objs price = (r, p) /\
    nonempty p = find truthy (map candidate_price (sound_prefix objs)) /\
    raised_empty r p.
Proof.
  induction objs as [|obj rest IH]; intros price Hp; simpl.
  - exists (Ok tt), price; split; [reflexivity|].
    split; [now apply nonempty_falsy|exact I].
  - destruct (faulty obj) eqn:Hf.
    + destruct (visit_object_faulty obj price Hf) as [e ->].
      exists (Raise e), price; split; [reflexivity|].
      split; [now apply nonempty_falsy|exact Hp].
    + destruct (visit_object_sound obj price Hf Hp) as [p [-> Hne]].
      simpl; unfold nonempty in Hne.
      destruct (truthy p) eqn:Htp.
      * exists (Ok tt), p; split; [reflexivity|].
        destruct (truthy (candidate_price obj)); [|discriminate].
        rewrite (nonempty_truthy _ Htp); split; [exact Hne|exact I].
      * destruct (truthy (candidate_price obj)); [discriminate|].
        apply IH; exact Htp.
Qed.

(** Looping over strings never assigns [price]. *)
Lemma visit_objects_strings (l : list string) (price : pyval) :
  exists r, visit_objects (map PStr l) price = (r, price).
Proof.
  induction l as [|s l IH]; simpl; [eauto|].
  unfold visit_object; simpl.
  destruct (str_contains "offers" s); simpl; eauto.
Qed.

Lemma str_chars_strings (s : string) : exists l, str_chars s = map PStr l.
Proof.
  induction s as [|c s [l IH]]; simpl.
  - exists []; reflexivity.
  - exists (String c EmptyString :: l); rewrite IH; reflexivity.
Qed.

Lemma dict_keys_strings (d : list (string * pyval)) :
  map (fun kv => PStr (fst kv)) d = map PStr (map fst d).
Proof. now rewrite map_map. Qed.

(** One block: whether or not the [try] raises, [price] ends non-empty
    exactly when a sound candidate of the block yields a price. *)
Lemma try_block_sound (script : tag) (price : pyval) :
  truthy price = false ->
  exists r p,
    try_block json_loads script price = (r, p) /\
    nonempty p
    = find truthy (map candidate_price
                       (sound_prefix (block_candidates json_loads script))) /\
    raised_empty r p.
Proof.
  intros Hp; unfold try_block, loads_script, block_candidates.
  assert (Hkeep : forall r : result unit,
             exists r' p, (r, price) = (r', p) /\ nonempty p = None /\
                          raised_empty r' p).
  { intros r; exists r, price; split; [reflexivity|].
    split; [now apply nonempty_falsy|destruct r; [exact I|exact Hp]]. }
  destruct (tag_string script) as [s|]; [|apply Hkeep].
  destruct (json_loads s) as [data|]; [|apply Hkeep].
  destruct data as [| b | z | f | s' | l | d]; try apply Hkeep.
  destruct (assoc "@graph" d) as [g|].
  - destruct g as [| b | z | f | s' | l | d']; simpl; try apply Hkeep.
    + destruct (str_chars_strings s') as [l ->].
      destruct (visit_objects_strings l price) as [r ->]; apply Hkeep.
    + apply visit_objects_sound; exact Hp.
    + rewrite dict_keys_strings.
      destruct (visit_objects_strings (map fst d') price) as [r ->].
      apply Hkeep.
  - simpl py_iter; cbv iota. apply visit_objects_sound; exact Hp.
Qed.

Lemma find_app (A : Type) (p : A -> bool) (l1 l2 : list A) :
  find p (l1 ++ l2)
  = match find p l1 with Some x => Some x | None => find p l2 end.
Proof.
  induction l1 as [|a l1 IH]; simpl; [reflexivity|].
  destruct (p a); [reflexivity|exact IH].
Qed.

Lemma scan_scripts_sound (scripts : list tag) :
  forall price, truthy price = false ->
  nonempty (scan_scripts json_loads scripts price)
  = find truthy
      (flat_map (fun s => map candidate_price
                            (sound_prefix (block_candidates json_loads s)))
                scripts).
Proof.
  induction scripts as [|script rest IH]; intros price Hp; simpl.
  - now apply nonempty_falsy.
  - destruct (try_block_sound script price Hp) as [r [p [-> [Hne Hr]]]].
    rewrite find_app, <- Hne; unfold nonempty.
    destruct r as [u|e]; simpl in Hr.
    + destruct (truthy p) eqn:Htp; [rewrite Htp; reflexivity|].
      apply IH; exact Htp.
    + rewrite Hr; apply IH; exact Hr.
Qed.

(** C4, as the code has it: when tier 1 resolves nothing, the price of the
    document is non-empty exactly when the scan of the JSON-LD blocks finds
    one, and it is then the first non-empty price in document order, where
    a block that does not parse, or parses to something other than an
    object, offers no candidate; an object with a [@graph] array offers the
    elements of the array; an object whose [@graph] is no array offers
    none; an object without [@graph] offers itself; and within a block only
    the candidates standing before the first faulty one are looked at. *)
Theorem jsonld_scan_first_price (doc : soup) :
  truthy (price_tier1 doc) = false ->
  nonempty (extract_price json_loads doc) = jsonld_price json_loads doc.
Proof.
  intros Hp; unfold extract_price, jsonld_price.
  rewrite Hp; simpl.
  apply scan_scripts_sound; exact Hp.
Qed.

(** On blocks whose candidates are all objects with a well-shaped [offers],
    and whose [@graph], when present, is an array, the scan finds the price
    the specification describes. *)
Lemma sound_prefix_regular (cs : list pyval) :
  forallb (fun c => match c with PDict _ => negb (faulty c) | _ => false end)
          cs = true ->
  sound_prefix cs = cs.
Proof.
  induction cs as [|c cs IH]; simpl; [reflexivity|].
  intros H; apply andb_true_iff in H as [Hc Hcs].
  destruct c; try discriminate.
  apply negb_true_iff in Hc; rewrite Hc, IH; auto.
Qed.

Lemma block_candidates_regular (script : tag) :
  regular_block json_loads script = true ->
  sound_prefix (block_candidates json_loads script)
  = spec_candidates json_loads script.
Proof.
  unfold regular_block; intros H; apply andb_true_iff in H as [Hc Hg].
  rewrite <- (sound_prefix_regular _ Hc); f_equal.
  unfold block_candidates, spec_candidates.
  destruct (tag_string script) as [s|]; [|reflexivity].
  destruct (json_loads s) as [[| | | | | |d]|]; try reflexivity.
  destruct (assoc "@graph" d) as [[]|]; try reflexivity; discriminate.
Qed.

Lemma jsonld_price_regular (doc : soup) :
  forallb (regular_block json_loads) (ld_json_scripts doc) = true ->
  jsonld_price json_loads doc = spec_jsonld_price json_loads doc.
Proof.
  unfold jsonld_price, spec_jsonld_price.
  induction (ld_json_scripts doc) as [|s l IH]; simpl; [reflexivity|].
  intros H; apply andb_true_iff in H as [Hs Hl].
  rewrite !find_app, (block_candidates_regular _ Hs), (IH Hl); reflexivity.
Qed.

End ScanFacts.

(** C4 at the document of the specification: a block that is no JSON, then
    the block [{"@graph":[{"offers":{"price":"42.00"}}]}]. *)
Lemma jsonld_scan_first_price_witness :
  truthy (price_tier1 doc_graph) = false /\
  nonempty (extract_price sample_loads doc_graph) = Some (PStr "42.00").
Proof.
  split; [reflexivity|].
  rewrite (jsonld_scan_first_price sample_loads doc_graph eq_refl).
  reflexivity.
Defined.

(** C4 as stated fails: a candidate on which the loop body raises ends the
    whole block, so the priced candidate behind it is never looked at. *)
Lemma jsonld_scan_faulty_candidate_ends_block :
  (spec_jsonld_price sample_loads doc_null_candidate = Some (PStr "42.00") /\
   extract_price sample_loads doc_null_candidate = PNone) /\
  (spec_jsonld_price sample_loads doc_empty_offers = Some (PStr "42.00") /\
   extract_price sample_loads doc_empty_offers = PNone).
Proof. repeat split; reflexivity. Qed.

(* ================================================================= *)
(** * Properties of the lifecycle handlers *)

(** ** Resolving the username *)

Lemma get_user_id_keeps_items (st st1 : world) (username : string)
    (create : bool) (user_id : option Z) :
  get_user_id st username create = (st1, user_id) ->
  items st1 = items st /\ items_seq st1 = items_seq st /\
  fetched st1 = fetched st.
Proof.
  unfold get_user_id.
  destruct (find _ (users st)); [|destruct create];
    intros H; injection H as <- <-; auto.
Qed.

Lemma get_user_id_create_some (st st1 : world) (username : string)
    (user_id : option Z) :
  get_user_id st username true = (st1, user_id) ->
  exists id, user_id = Some id.
Proof.
  unfold get_user_id.
  destruct (find _ (users st)); intros H; injection H as <- <-; eauto.
Qed.

Lemma find_app_none (A : Type) (p : A -> bool) (l1 l2 : list A) :
  find p l1 = None -> find p (l1 ++ l2) = find p l2.
Proof.
  induction l1 as [|a l1 IH]; simpl; [reflexivity|].
  destruct (p a); [discriminate|exact IH].
Qed.

(** Once resolved, a username resolves to the same id without a change of
    state, in every state that has the same [users] table. *)
Lemma get_user_id_again (st st1 st2 : world) (username : string)
    (user_id : option Z) :
  get_user_id st username true = (st1, user_id) ->
  users st2 = users st1 ->
  get_user_id st2 username true = (st2, user_id).
Proof.
  unfold get_user_id; intros H Hu; rewrite Hu.
  destruct (find _ (users st)) as [u|] eqn:Hf.
  - injection H as <- <-; rewrite Hf; reflexivity.
  - injection H as <- <-; simpl.
    rewrite (find_app_none _ _ _ _ Hf); simpl.
    rewrite String.eqb_refl; reflexivity.
Qed.

Lemma fold_max_bound (ids : list Z) (x : Z) :
  In x ids -> x <= fold_right Z.max 0 ids.
Proof.
  induction ids as [|a ids IH]; simpl; [contradiction|].
  intros [->|H]; [lia|]; specialize (IH H); lia.
Qed.

Lemma next_rowid_fresh (seq : Z) (ids : list Z) (x : Z) :
  In x ids -> x <> next_rowid seq ids.
Proof.
  intros H; apply fold_max_bound in H; unfold next_rowid; lia.
Qed.


(** ** Rows and keys *)


Lemma find_none_all (A : Type) (p : A -> bool) (l : list A) :
  (forall r, In r l -> p r = false) -> find p l = None.
Proof.
  induction l as [|a l IH]; simpl; intros H; [reflexivity|].
  rewrite (H a (or_introl eq_refl)); apply IH; intros r Hr; apply H; right.
  exact Hr.
Qed.

Lemma find_map_stable (A : Type) (p : A -> bool) (g : A -> A) (l : list A) :
  (forall x, p (g x) = p x) ->
  find p (map g l) = option_map g (find p l).
Proof.
  intros Hg; induction l as [|a l IH]; simpl; [reflexivity|].
  rewrite Hg; destruct (p a); [reflexivity|exact IH].
Qed.

Lemma sql_update_untouched (cond : item_row -> bool)
    (f : item_row -> item_row) (rows : list item_row) :
  (forall r, In r rows -> cond r = false) ->
  sql_update cond f rows = rows.
Proof.
  unfold sql_update; intros H; induction rows as [|a rows IH]; simpl.
  - reflexivity.
  - rewrite (H a (or_introl eq_refl)), IH; [reflexivity|].
    intros r Hr; apply H; right; exact Hr.
Qed.


Lemma key_matches_reactivate_on (user_id : option Z) (url : option string)
    (today : string) (r : item_row) :
  key_matches user_id url (reactivate_on today r) = key_matches user_id url r.
Proof. reflexivity. Qed.

Lemma key_matches_self (id : Z) (url : string) (r : item_row) :
  i_user_id r = Some id -> i_url r = url ->
  key_matches (Some id) (Some url) r = true.
Proof.
  unfold key_matches; intros -> ->; simpl.
  rewrite Z.eqb_refl, String.eqb_refl; reflexivity.
Qed.

Lemma str_truthy_some (s : string) : s <> EmptyString -> str_truthy (Some s) = true.
Proof.
  intros H; simpl; destruct (String.eqb_spec s EmptyString); [contradiction|].
  reflexivity.
Qed.

Section LifecycleFacts.

Variable json_loads : string -> option pyval.
Variable http_get : list string -> string -> option string.
Variable html_parser : string -> soup.
Variable netloc : string -> option string.


Lemma fetch_metadata_keeps_tables (st st2 : world) (u : string)
    (r : result metadata) :
  fetch_metadata json_loads http_get html_parser st u = (st2, r) ->
  users st2 = users st /\ users_seq st2 = users_seq st /\
  items st2 = items st /\ items_seq st2 = items_seq st /\
  fetched st2 = u :: fetched st.
Proof.
  unfold fetch_metadata.
  destruct (http_get (fetched st) u); intros H; injection H as <- <-;
    repeat split; reflexivity.
Qed.



(** X26: an add with a url whose host [urlparse] returns, for a key
    without a row, whose fetch fails, appends a row with no title,
    description, image or price, with that host as source, today as
    added_date, neither purchased nor archived, and answers "added". *)
Theorem add_item_fetch_failure (today : string) (st st1 : world)
    (username url host : string) (user_id : option Z) :
  url <> EmptyString ->
  netloc url = Some host ->
  get_user_id st username true = (st1, user_id) ->
  (forall r, In r (items st) -> key_matches user_id (Some url) r = false) ->
  http_get (fetched st) url = None ->
  add_item json_loads http_get html_parser netloc today st username
    (Some url)
  = (let id := next_rowid (items_seq st) (map i_id (items st)) in
     World (users st1) (users_seq st1)
           (items st ++ [ItemRow id user_id url None None None SNull
                                 (Some host) (Some today)
                                 false false])
           id (url :: fetched st),
     Ok (Response 200 (PDict [("status", PStr "added"); ("title", PNone)]))).
Proof.
  intros Hurl Hhost Hgu Hnone Hget; unfold add_item.
  destruct (get_user_id_keeps_items _ _ _ _ _ Hgu) as [Hi [Hs Hf]].
  rewrite (str_truthy_some _ Hurl), Hgu; simpl negb; cbv iota beta.
  rewrite Hi, (find_none_all _ _ _ Hnone).
  unfold fetch_metadata; rewrite Hf, Hget; simpl.
  rewrite Hhost, Hi, Hs; reflexivity.
Qed.

(** C7, against the code: [add_item] swallows the failed fetch, but it then
    asks [urlparse] for the host outside any [try].  For a url on which
    [urlparse] raises, the add for a key without a row, whose fetch fails,
    ends in the uncaught [ValueError]: the url was fetched, the username is
    resolved, and no row is stored, where an "added" answer and a row with
    absent metadata were due. *)
Theorem add_item_fetch_failure_unparsed_url (today : string) (st st1 : world)
    (username url : string) (user_id : option Z) :
  url <> EmptyString ->
  netloc url = None ->
  get_user_id st username true = (st1, user_id) ->
  (forall r, In r (items st) -> key_matches user_id (Some url) r = false) ->
  http_get (fetched st) url = None ->
  add_item json_loads http_get html_parser netloc today st username
    (Some url)
  = (World (users st1) (users_seq st1) (items st) (items_seq st)
           (url :: fetched st),
     Raise ValueError).
Proof.
  intros Hurl Hhost Hgu Hnone Hget; unfold add_item.
  destruct (get_user_id_keeps_items _ _ _ _ _ Hgu) as [Hi [Hs Hf]].
  rewrite (str_truthy_some _ Hurl), Hgu; simpl negb; cbv iota beta.
  rewrite Hi, (find_none_all _ _ _ Hnone).
  unfold fetch_metadata; rewrite Hf, Hget; simpl.
  rewrite Hhost, Hi, Hs; reflexivity.
Qed.



End LifecycleFacts.

(** The external-link lookup creates nothing: for a username without a row
    it answers 404 and leaves the state as it is. *)
Lemma get_user_info_unknown (st : world) (username : string) :
  ~ In username (map u_username (users st)) ->
  get_user_info st username = (st, Ok (Response 404 (PDict []))).
Proof.
  intros Hno; unfold get_user_info, get_user_id.
  rewrite find_none_all; [reflexivity|].
  intros r Hr; apply String.eqb_neq; intros Heq; apply Hno.
  rewrite <- Heq; apply in_map, Hr.
Qed.





(* ================================================================= *)
(** * The rowid order is kept by every request *)

Lemma sorted_snoc (l : list Z) (y : Z) :
  StronglySorted Z.lt l -> (forall x, In x l -> x < y) ->
  StronglySorted Z.lt (l ++ [y]).
Proof.
  induction 1 as [|a l Hs IH Ha]; intros Hy; simpl.
  - repeat constructor.
  - constructor.
    + apply IH; intros x Hx; apply Hy; right; exact Hx.
    + apply Forall_app; split; [exact Ha|].
      repeat constructor; apply Hy; left; reflexivity.
Qed.

Lemma sorted_unique (l : list Z) : StronglySorted Z.lt l -> NoDup l.
Proof.
  induction 1 as [|a l Hs IH Ha]; constructor; [|exact IH].
  intros Hin; rewrite Forall_forall in Ha; specialize (Ha a Hin); lia.
Qed.

Lemma sorted_map_filter (A : Type) (f : A -> Z) (p : A -> bool)
    (l : list A) :
  StronglySorted Z.lt (map f l) -> StronglySorted Z.lt (map f (filter p l)).
Proof.
  induction l as [|a l IH]; simpl; intros H; [constructor|].
  inversion H as [|? ? Hs Ha]; subst.
  destruct (p a); [|apply IH; exact Hs].
  simpl; constructor; [apply IH; exact Hs|].
  rewrite Forall_forall in *; intros x Hx; apply Ha.
  apply in_map_iff in Hx as [r [<- Hr]].
  apply filter_In in Hr as [Hr _]; apply in_map, Hr.
Qed.

Lemma next_rowid_above (seq : Z) (ids : list Z) (x : Z) :
  In x ids -> x < next_rowid seq ids.
Proof.
  intros H; apply fold_max_bound in H; unfold next_rowid; lia.
Qed.

Lemma sql_update_ids (cond : item_row -> bool) (f : item_row -> item_row)
    (rows : list item_row) :
  (forall r, i_id (f r) = i_id r) ->
  map i_id (sql_update cond f rows) = map i_id rows.
Proof.
  intros Hf; unfold sql_update; rewrite map_map; apply map_ext.
  intros r; destruct (cond r); [apply Hf|reflexivity].
Qed.

Lemma get_user_id_ordered (st st1 : world) (username : string)
    (create : bool) (user_id : option Z) :
  get_user_id st username create = (st1, user_id) ->
  rowid_ordered st -> rowid_ordered st1.
Proof.
  unfold get_user_id, rowid_ordered.
  destruct (find _ (users st)); [|destruct create];
    intros H; injection H as <- <-; simpl; auto.
  intros [Hu Hi]; split; [|exact Hi].
  rewrite map_app; apply sorted_snoc; [exact Hu|].
  intros x; apply next_rowid_above.
Qed.

Lemma set_items_ordered (st : world) (rows : list item_row) :
  rowid_ordered st -> StronglySorted Z.lt (map i_id rows) ->
  rowid_ordered (set_items st rows).
Proof. intros [Hu _] Hr; split; assumption. Qed.

Section OrderKept.

Variable json_loads : string -> option pyval.
Variable http_get : list string -> string -> option string.
Variable html_parser : string -> soup.
Variable netloc : string -> option string.

Lemma add_item_ordered (today : string) (st : world) (username : string)
    (url : option string) :
  rowid_ordered st ->
  rowid_ordered (fst (add_item json_loads http_get html_parser netloc today
                               st username url)).
Proof.
  intros Hst; unfold add_item.
  destruct (str_truthy url); simpl negb; cbv iota; [|exact Hst].
  destruct (get_user_id st username true) as [st1 user_id] eqn:Hgu.
  pose proof (get_user_id_ordered _ _ _ _ _ Hgu Hst) as H1.
  destruct (find (key_matches user_id url) (items st1)) as [row|].
  - destruct (i_archived row); [|exact H1].
    assert (H2 : rowid_ordered
                   (set_items st1
                      (sql_update (fun r => i_id r =? i_id row)
                                  (reactivate_on today) (items st1)))).
    { apply set_items_ordered; [exact H1|].
      rewrite sql_update_ids; [apply H1|reflexivity]. }
    destruct (find _ _); exact H2.
  - destruct (fetch_metadata _ _ _ st1 _) as [st2 [md|e]] eqn:Hfm;
      destruct (fetch_metadata_keeps_tables _ _ _ _ _ _ _ Hfm)
        as [Hu [_ [Hi _]]];
      assert (H2 : rowid_ordered st2)
        by (unfold rowid_ordered; rewrite Hu, Hi; exact H1);
      [|exact H2].
    destruct (netloc _); [|exact H2].
    destruct (sql_bind (md_price md)); [|exact H2].
    destruct H2 as [H2u H2i]; split; simpl; [exact H2u|].
    rewrite map_app; apply sorted_snoc; [exact H2i|].
    intros x; apply next_rowid_above.
Qed.

(** Every request keeps the rowids of both tables in increasing order; in
    particular the ids stay unique. *)
Lemma handle_keeps_rowid_order (today : string) (st : world)
    (req : request) :
  rowid_ordered st ->
  rowid_ordered (fst (handle json_loads http_get html_parser netloc today
                             st req)).
Proof.
  intros Hst.
  destruct req as [u | u | u url | u url | u url | u url | u | u url | u
                  | u link]; simpl.
  - unfold get_wishlist.
    destruct (get_user_id st u true) eqn:Hgu; simpl.
    exact (get_user_id_ordered _ _ _ _ _ Hgu Hst).
  - unfold get_archive_items.
    destruct (get_user_id st u true) eqn:Hgu; simpl.
    exact (get_user_id_ordered _ _ _ _ _ Hgu Hst).
  - apply add_item_ordered; exact Hst.
  - unfold delete_item.
    destruct (get_user_id st u true) as [st1 uid] eqn:Hgu; simpl.
    pose proof (get_user_id_ordered _ _ _ _ _ Hgu Hst) as H1.
    apply set_items_ordered; [exact H1|].
    apply sorted_map_filter, H1.
  - unfold mark_purchased.
    destruct (get_user_id st u true) as [st1 uid] eqn:Hgu; simpl.
    pose proof (get_user_id_ordered _ _ _ _ _ Hgu Hst) as H1.
    apply set_items_ordered; [exact H1|].
    rewrite sql_update_ids; [apply H1|reflexivity].
  - unfold unmark_purchased.
    destruct (get_user_id st u true) as [st1 uid] eqn:Hgu; simpl.
    pose proof (get_user_id_ordered _ _ _ _ _ Hgu Hst) as H1.
    apply set_items_ordered; [exact H1|].
    rewrite sql_update_ids; [apply H1|reflexivity].
  - unfold archive_purchased.
    destruct (get_user_id st u true) as [st1 uid] eqn:Hgu; simpl.
    pose proof (get_user_id_ordered _ _ _ _ _ Hgu Hst) as H1.
    apply set_items_ordered; [exact H1|].
    rewrite sql_update_ids; [apply H1|reflexivity].
  - unfold restore_item.
    destruct (get_user_id st u true) as [st1 uid] eqn:Hgu; simpl.
    pose proof (get_user_id_ordered _ _ _ _ _ Hgu Hst) as H1.
    destruct (find _ _); simpl; [exact H1|].
    apply set_items_ordered; [exact H1|].
    rewrite sql_update_ids; [apply H1|reflexivity].
  - unfold get_user_info.
    destruct (get_user_id st u false) as [st1 uid] eqn:Hgu; simpl.
    pose proof (get_user_id_ordered _ _ _ _ _ Hgu Hst) as H1.
    destruct (negb (id_truthy uid)); [exact H1|].
    destruct (find _ _); exact H1.
  - unfold set_external_link.
    destruct (get_user_id st u true) as [st1 uid] eqn:Hgu; simpl.
    pose proof (get_user_id_ordered _ _ _ _ _ Hgu Hst) as [H1u H1i].
    split; simpl; [|exact H1i].
    rewrite map_map.
    rewrite map_ext with (g := u_id); [exact H1u|].
    intros r; simpl; destruct uid as [v|]; [|reflexivity].
    destruct (u_id r =? v); reflexivity.
Qed.

(** In a state reached by requests the ids of [items] are unique: the
    premise on which [add_item] rewrites a single row. *)
Lemma rowid_ordered_unique (st : world) :
  rowid_ordered st -> NoDup (map i_id (items st)).
Proof. intros [_ H]; apply sorted_unique, H. Qed.

End OrderKept.

(* ================================================================= *)
(** * The handlers on the sample states *)





(** X26 for a new user while the network is down. *)
Lemma add_item_fetch_failure_witness :
  add_item sample_loads offline no_parser sample_netloc "2024-02-02"
           world_archived "bob" (Some lamp_url)
  = (World [alice; UserRow 2 "bob" None] 2
           [kettle_row; lamp_row;
            ItemRow 3 (Some 2) lamp_url None None None SNull
                    (Some "shop.example") (Some "2024-02-02") false false]
           3 [lamp_url],
     Ok (Response 200 (PDict [("status", PStr "added"); ("title", PNone)]))).
Proof.
  refine (add_item_fetch_failure sample_loads offline no_parser sample_netloc
            "2024-02-02" world_archived _ "bob" lamp_url "shop.example"
            (Some 2) _ eq_refl eq_refl _ eq_refl).
  - discriminate.
  - intros r [<-|[<-|[]]]; reflexivity.
Defined.





(** An add whose page holds an [og:title] without content ends in the
    uncaught [KeyError]: the page was fetched, no row is stored. *)
Lemma add_item_fails_on_bare_og_title :
  add_item sample_loads serves_bare_page parses_bare_page sample_netloc
           "2024-02-02" world_archived "alice"
           (Some "http://shop.example/vase")
  = (World (users world_archived) (users_seq world_archived)
           (items world_archived) (items_seq world_archived)
           ["http://shop.example/vase"],
     Raise KeyError).
Proof. reflexivity. Qed.

(* ================================================================= *)
(** * More on the extractor *)

Section ExtractorErrors.

Variable json_loads : string -> option pyval.

Lemma soup_find_some (doc : soup) (name attr val : string) (t : tag) :
  soup_find doc name attr val = Some t ->
  In t doc /\ tag_name t = name /\ tag_get t attr = Some val.
Proof.
  unfold soup_find; intros H; apply find_some in H as [Hin Hm].
  unfold tag_matches in Hm; apply andb_true_iff in Hm as [Hn Ha].
  apply String.eqb_eq in Hn.
  destruct (tag_get t attr) as [v|]; [|discriminate].
  apply String.eqb_eq in Ha; subst v; auto.
Qed.

Lemma og_raises (doc : soup) (name : string) (e : exn) :
  og doc name = Raise e ->
  e = KeyError /\
  exists t, In t doc /\ tag_name t = "meta" /\
            tag_get t "property" = Some ("og:" ++ name)%string /\
            tag_get t "content" = None.
Proof.
  unfold og.
  destruct (soup_find doc "meta" "property" ("og:" ++ name)%string)
    as [t|] eqn:Hf; [|discriminate].
  destruct (tag_get t "content") eqn:Hc; [discriminate|].
  intros H; injection H as <-; split; [reflexivity|].
  apply soup_find_some in Hf as [Hin [Hn Hp]]; exists t; auto.
Qed.

Lemma extract_title_raises (doc : soup) (e : exn) :
  extract_title doc = Raise e ->
  (e = KeyError /\
   exists t, In t doc /\ tag_name t = "meta" /\
             tag_get t "property" = Some "og:title" /\
             tag_get t "content" = None) \/
  (e = AttributeError /\
   exists t, In t doc /\ tag_name t = "title" /\ tag_string t = None).
Proof.
  unfold extract_title, bind.
  destruct (og doc "title") as [o|e'] eqn:Hog.
  - destruct (str_truthy o); [discriminate|].
    unfold soup_title.
    destruct (find _ doc) as [el|] eqn:Hf; [|discriminate].
    destruct (tag_string el) eqn:Hs; [discriminate|].
    intros H; injection H as <-; right; split; [reflexivity|].
    apply find_some in Hf as [Hin Hn]; apply String.eqb_eq in Hn.
    exists el; auto.
  - intros H; injection H as <-; left.
    apply og_raises in Hog; exact Hog.
Qed.

(** X2: [extract] raises nothing but a [KeyError], on a [meta] element
    with an [og:title], [og:description] or [og:image] property and no
    content attribute, or an [AttributeError], on a title element without
    text. *)
Theorem extract_raise_causes (doc : soup) (e : exn) :
  extract json_loads doc = Raise e ->
  (e = KeyError /\
   exists t name, (name = "title" \/ name = "description" \/
                   name = "image") /\
                  In t doc /\ tag_name t = "meta" /\
                  tag_get t "property" = Some ("og:" ++ name)%string /\
                  tag_get t "content" = None) \/
  (e = AttributeError /\
   exists t, In t doc /\ tag_name t = "title" /\ tag_string t = None).
Proof.
  unfold extract, bind.
  destruct (extract_title doc) as [t|e1] eqn:Ht.
  - destruct (og doc "description") as [d|e2] eqn:Hd.
    + destruct (og doc "image") as [i|e3] eqn:Hi; [discriminate|].
      intros H; injection H as <-; left.
      destruct (og_raises _ _ _ Hi) as [-> [x Hx]].
      split; [reflexivity|]; exists x, "image"; auto.
    + intros H; injection H as <-; left.
      destruct (og_raises _ _ _ Hd) as [-> [x Hx]].
      split; [reflexivity|]; exists x, "description"; auto.
  - intros H; injection H as <-.
    destruct (extract_title_raises _ _ Ht) as [[-> [x Hx]]|Hr].
    + left; split; [reflexivity|]; exists x, "title"; auto.
    + right; exact Hr.
Qed.

(** X1: on a document whose [meta] elements all have a content attribute
    and whose title elements all have text, [extract] returns, and the price
    it returns is the one of the two-tier lookup. *)
Theorem extract_returns_on_complete_tags (doc : soup) :
  (forall t, In t doc -> tag_name t = "meta" -> tag_get t "content" <> None) ->
  (forall t, In t doc -> tag_name t = "title" -> tag_string t <> None) ->
  exists md, extract json_loads doc = Ok md /\
             md_price md = extract_price json_loads doc.
Proof.
  intros Hmeta Htitle.
  assert (Hog : forall name, exists o, og doc name = Ok o).
  { intros name; destruct (og doc name) as [o|e] eqn:Ho; [eauto|].
    destruct (og_raises _ _ _ Ho) as [_ [t [Hin [Hn [_ Hc]]]]].
    exfalso; exact (Hmeta t Hin Hn Hc). }
  destruct (extract_title doc) as [t|e] eqn:Ht.
  - destruct (Hog "description") as [d Hd], (Hog "image") as [i Hi].
    eexists; split; [apply extract_returns; eassumption|reflexivity].
  - exfalso.
    destruct (extract_title_raises _ _ Ht)
      as [[_ [x [Hin [Hn [_ Hc]]]]]|[_ [x [Hin [Hn Hs]]]]].
    + exact (Hmeta x Hin Hn Hc).
    + exact (Htitle x Hin Hn Hs).
Qed.

(** X3: on a document whose JSON-LD blocks are all regular (every
    candidate an object whose [offers], when a list, starts with an object;
    every [@graph] an array), and whose tier 1 resolves nothing, the price is
    non-empty exactly when some candidate carries a non-empty offers price,
    and is then the first such price in document order. *)
Theorem jsonld_scan_regular (doc : soup) :
  truthy (price_tier1 doc) = false ->
  forallb (regular_block json_loads) (ld_json_scripts doc) = true ->
  nonempty (extract_price json_loads doc) = spec_jsonld_price json_loads doc.
Proof.
  intros Hp Hreg.
  rewrite <- (jsonld_price_regular json_loads doc Hreg).
  unfold extract_price, jsonld_price; rewrite Hp; simpl.
  apply scan_scripts_sound; exact Hp.
Qed.

End ExtractorErrors.

Lemma extract_returns_on_complete_tags_witness :
  exists md, extract sample_loads doc_meta_and_jsonld = Ok md /\
             md_price md = PStr "19.99".
Proof.
  refine (extract_returns_on_complete_tags sample_loads doc_meta_and_jsonld
            _ _).
  - intros t [<-|[<-|[]]]; simpl; intros H; discriminate.
  - intros t [<-|[<-|[]]]; simpl; intros H; discriminate.
Defined.

Lemma extract_raise_causes_witness :
  (KeyError = KeyError /\
   exists t name, (name = "title" \/ name = "description" \/
                   name = "image") /\
                  In t doc_bare_og_title /\ tag_name t = "meta" /\
                  tag_get t "property" = Some ("og:" ++ name)%string /\
                  tag_get t "content" = None) \/
  (KeyError = AttributeError /\
   exists t, In t doc_bare_og_title /\ tag_name t = "title" /\
             tag_string t = None).
Proof.
  exact (extract_raise_causes sample_loads doc_bare_og_title KeyError
           eq_refl).
Defined.

Lemma jsonld_scan_regular_witness :
  nonempty (extract_price sample_loads doc_graph) = Some (PStr "42.00").
Proof.
  exact (jsonld_scan_regular sample_loads doc_graph eq_refl eq_refl).
Defined.

(* ================================================================= *)
(** * More on resolving users and on add_item *)

Lemma get_user_id_lookup_only (st : world) (username : string) :
  fst (get_user_id st username false) = st.
Proof.
  unfold get_user_id; destruct (find _ (users st)); reflexivity.
Qed.

(** The id a creating lookup returns is the id of a row of that name. *)
Lemma get_user_id_in (st st1 : world) (username : string)
    (user_id : option Z) :
  get_user_id st username true = (st1, user_id) ->
  exists u, In u (users st1) /\ user_id = Some (u_id u) /\
            u_username u = username.
Proof.
  unfold get_user_id.
  destruct (find _ (users st)) as [u|] eqn:Hf; intros H; injection H as <- <-.
  - apply find_some in Hf as [Hin Hn]; apply String.eqb_eq in Hn.
    exists u; auto.
  - eexists; split; [apply in_or_app; right; left; reflexivity|].
    split; reflexivity.
Qed.

Lemma find_in_update_by_id (f : item_row -> item_row) (row : item_row)
    (rows : list item_row) :
  (forall r, i_id (f r) = i_id r) -> In row rows ->
  find (fun r => i_id r =? i_id row)
       (sql_update (fun r => i_id r =? i_id row) f rows) <> None.
Proof.
  intros Hf Hin Hnone.
  apply find_none with (x := f row) in Hnone.
  - rewrite Hf, Z.eqb_refl in Hnone; discriminate.
  - unfold sql_update; apply in_map_iff; exists row.
    rewrite Z.eqb_refl; auto.
Qed.

Section AddFacts.

Variable json_loads : string -> option pyval.
Variable http_get : list string -> string -> option string.
Variable html_parser : string -> soup.
Variable netloc : string -> option string.

(** X4: an add that answers "added" has appended exactly one row, under a
    fresh id, to a table that held no row for the key: the row carries the
    url, the host of the url as source, today as added_date and the title
    the answer reports, it is neither purchased nor archived, and exactly
    one fetch, of that url, was made. *)
Theorem add_item_added (today : string) (st st' : world) (username : string)
    (url : option string) (resp : response) :
  add_item json_loads http_get html_parser netloc today st username url
    = (st', Ok resp) ->
  response_status resp = Some "added" ->
  exists u row,
    url = Some u /\ u <> EmptyString /\
    items st' = items st ++ [row] /\
    (forall r, In r (items st) -> key_matches (i_user_id row) url r = false) /\
    ~ In (i_id row) (map i_id (items st)) /\
    i_url row = u /\ i_source row = netloc u /\
    i_added_date row = Some today /\
    i_purchased row = false /\ i_archived row = false /\
    body resp = PDict [("status", PStr "added");
                       ("title", of_opt_str (i_title row))] /\
    fetched st' = u :: fetched st.
Proof.
  unfold add_item.
  destruct (str_truthy url) eqn:Hurl; simpl negb; cbv iota.
  2:{ intros H; inversion H; subst; intros H'; cbv in H'; discriminate H'. }
  destruct url as [u|]; [|discriminate].
  destruct (get_user_id st username true) as [st1 user_id] eqn:Hgu.
  destruct (get_user_id_keeps_items _ _ _ _ _ Hgu) as [Hi [Hs Hf]].
  destruct (find (key_matches user_id (Some u)) (items st1)) as [row|]
    eqn:Hfind.
  - destruct (i_archived row).
    + destruct (find _ (items (set_items _ _))); intros H; inversion H; subst;
        intros H'; cbv in H'; discriminate H'.
    + intros H; inversion H; subst; intros H'; cbv in H'; discriminate H'.
  - destruct (fetch_metadata _ _ _ st1 u) as [st2 [md|e]] eqn:Hfm;
      [|discriminate].
    destruct (fetch_metadata_keeps_tables _ _ _ _ _ _ _ Hfm)
      as [_ [_ [Hi2 [Hs2 Hf2]]]].
    destruct (netloc u) as [host|] eqn:Hhost; [|discriminate].
    destruct (sql_bind (md_price md)) as [price|e]; [|discriminate].
    intros H _; inversion H; subst; clear H.
    eexists u, _; simpl.
    rewrite Hi2, Hs2, Hf2, Hi, Hs, Hf.
    repeat split; try reflexivity.
    + intros E; subst u; discriminate.
    + intros r Hr; rewrite <- Hi in Hr.
      exact (find_none _ _ Hfind r Hr).
    + intros Hin; exact (next_rowid_fresh (items_seq st) _ _ Hin eq_refl).
    + symmetry; exact Hhost.
Qed.

(** X5: an add that ends in an exception has stored nothing: the items
    and their counter are as before, although the page was fetched and the
    user row, if it had to be created, stays. *)
Theorem add_item_raise_keeps_items (today : string) (st st' : world)
    (username : string) (url : option string) (e : exn) :
  add_item json_loads http_get html_parser netloc today st username url
    = (st', Raise e) ->
  items st' = items st /\ items_seq st' = items_seq st /\
  In username (map u_username (users st')) /\
  exists u, url = Some u /\ fetched st' = u :: fetched st.
Proof.
  unfold add_item.
  destruct (str_truthy url) eqn:Hurl; simpl negb; cbv iota; [|discriminate].
  destruct url as [u|]; [|discriminate].
  destruct (get_user_id st username true) as [st1 user_id] eqn:Hgu.
  destruct (get_user_id_keeps_items _ _ _ _ _ Hgu) as [Hi [Hs Hf]].
  destruct (get_user_id_in _ _ _ _ Hgu) as [usr [Hin [_ Hname]]].
  destruct (find (key_matches user_id (Some u)) (items st1)) as [row|]
    eqn:Hfind.
  - destruct (i_archived row); [|discriminate].
    destruct (find _ (items (set_items _ _))) eqn:Hid; [discriminate|].
    exfalso; revert Hid; simpl items; apply find_in_update_by_id.
    + reflexivity.
    + apply find_some in Hfind as [Hr _]; exact Hr.
  - destruct (fetch_metadata _ _ _ st1 u) as [st2 res] eqn:Hfm.
    destruct (fetch_metadata_keeps_tables _ _ _ _ _ _ _ Hfm)
      as [Hu2 [_ [Hi2 [Hs2 Hf2]]]].
    assert (Hst2 : items st2 = items st /\ items_seq st2 = items_seq st /\
                   In username (map u_username (users st2)) /\
                   exists u0, Some u = Some u0 /\
                              fetched st2 = u0 :: fetched st).
    { rewrite Hi2, Hs2, Hf2, Hu2, Hi, Hs, Hf; repeat split.
      - rewrite <- Hname; apply in_map, Hin.
      - exists u; split; reflexivity. }
    destruct res as [md|e']; [|intros H; inversion H; subst; exact Hst2].
    destruct (netloc u); [|intros H; inversion H; subst; exact Hst2].
    destruct (sql_bind (md_price md)); [discriminate|].
    intros H; inversion H; subst; exact Hst2.
Qed.

(** After an add that answered with status 200, the username resolves
    without a change and the first row of the key is active. *)
Lemma add_item_leaves_active (today : string) (st st' : world)
    (username : string) (url : option string) (resp : response) :
  add_item json_loads http_get html_parser netloc today st username url
    = (st', Ok resp) ->
  status_code resp = 200 ->
  exists user_id row,
    get_user_id st' username true = (st', user_id) /\
    find (key_matches user_id url) (items st') = Some row /\
    i_archived row = false.
Proof.
  unfold add_item.
  destruct (str_truthy url) eqn:Hurl; simpl negb; cbv iota.
  2:{ intros H; inversion H; subst; intros H'; cbv in H'; discriminate H'. }
  destruct (get_user_id st username true) as [st0 user_id] eqn:Hgu.
  destruct (get_user_id_create_some _ _ _ _ Hgu) as [uid ->].
  destruct (find (key_matches (Some uid) url) (items st0)) as [row|] eqn:Hfind.
  - destruct (i_archived row) eqn:Harch.
    + set (rows := sql_update _ _ _).
      destruct (find _ (items (set_items st0 rows))); intros H;
        inversion H; subst; clear H; intros _.
      exists (Some uid), (reactivate_on today row); split; [|split].
      * apply (get_user_id_again _ _ _ _ _ Hgu); reflexivity.
      * simpl items; unfold rows, sql_update.
        rewrite find_map_stable, Hfind; simpl.
        -- rewrite Z.eqb_refl; reflexivity.
        -- intros x; destruct (i_id x =? i_id row); reflexivity.
      * reflexivity.
    + intros H; inversion H; subst; clear H; intros _.
      exists (Some uid), row; split; [|split; assumption].
      apply (get_user_id_again _ _ _ _ _ Hgu); reflexivity.
  - destruct (fetch_metadata _ _ _ st0 _) as [st2 [md|e]] eqn:Hfm;
      [|discriminate].
    destruct (fetch_metadata_keeps_tables _ _ _ _ _ _ _ Hfm)
      as [Hu [_ [Hi _]]].
    destruct (netloc _) as [host|]; [|discriminate].
    destruct (sql_bind (md_price md)) as [price|e]; [|discriminate].
    intros H; inversion H; subst; clear H; intros _.
    destruct url as [url|]; [|discriminate].
    eexists (Some uid), _; split; [|split].
    + apply (get_user_id_again _ _ _ _ _ Hgu); exact Hu.
    + simpl items; rewrite Hi, find_app_none by exact Hfind; simpl.
      unfold key_matches; simpl.
      rewrite Z.eqb_refl, String.eqb_refl; reflexivity.
    + reflexivity.
Qed.

(** X6: after an add that answered with status 200 (added, restored or
    exists), an explicit restore of the same key is refused with
    "exists_active" and changes nothing. *)
Theorem restore_after_add_refused (today : string) (st st' : world)
    (username : string) (url : option string) (resp : response) :
  add_item json_loads http_get html_parser netloc today st username url
    = (st', Ok resp) ->
  status_code resp = 200 ->
  restore_item st' username url
  = (st', Ok (status_only 400 "exists_active")).
Proof.
  intros Hadd Hcode.
  destruct (add_item_leaves_active _ _ _ _ _ _ Hadd Hcode)
    as [user_id [row [Hgu [Hfind Harch]]]].
  unfold restore_item; rewrite Hgu.
  destruct (find (active_match user_id url) (items st')) eqn:Hact;
    [reflexivity|].
  apply find_some in Hfind as [Hin Hk].
  apply find_none with (x := row) in Hact; [|exact Hin].
  unfold active_match in Hact; rewrite Hk, Harch in Hact; discriminate.
Qed.

(** X7: after [delete_item] no row is left under the key, rows of other
    keys are all kept, and the next add for the key takes the fetch path:
    it fetches the url and can only answer "added" (or fail). *)
Theorem add_after_delete_fetches (today : string) (st st1 : world)
    (username u : string) (r : result response) :
  u <> EmptyString ->
  delete_item st username (Some u) = (st1, r) ->
  exists user_id,
    get_user_id st1 username true = (st1, user_id) /\
    (forall row, In row (items st1) <->
                 In row (items st) /\
                 key_matches user_id (Some u) row = false) /\
    fetched (fst (add_item json_loads http_get html_parser netloc today st1
                     username (Some u))) = u :: fetched st /\
    forall resp,
      snd (add_item json_loads http_get html_parser netloc today st1
             username (Some u)) = Ok resp ->
      response_status resp = Some "added".
Proof.
  intros Hu; unfold delete_item.
  destruct (get_user_id st username true) as [st0 user_id] eqn:Hgu.
  destruct (get_user_id_keeps_items _ _ _ _ _ Hgu) as [Hi [Hs Hf]].
  intros H; inversion H; subst; clear H.
  set (st1 := set_items st0 _).
  assert (Hgu1 : get_user_id st1 username true = (st1, user_id))
    by (apply (get_user_id_again _ _ _ _ _ Hgu); reflexivity).
  assert (Hrows : forall row, In row (items st1) <->
            In row (items st) /\ key_matches user_id (Some u) row = false).
  { intros row; unfold st1, sql_delete; simpl; rewrite filter_In, Hi.
    rewrite negb_true_iff; reflexivity. }
  exists user_id; split; [exact Hgu1|]; split; [exact Hrows|].
  unfold add_item; rewrite (str_truthy_some _ Hu), Hgu1; simpl negb.
  cbv iota.
  rewrite find_none_all by (intros row Hr; apply Hrows in Hr; apply Hr).
  destruct (fetch_metadata _ _ _ st1 u) as [st2 res] eqn:Hfm.
  destruct (fetch_metadata_keeps_tables _ _ _ _ _ _ _ Hfm)
    as [_ [_ [_ [_ Hf2]]]].
  assert (Hlog : fetched st2 = u :: fetched st)
    by (rewrite Hf2; unfold st1; simpl; rewrite Hf; reflexivity).
  destruct res as [md|e]; [|split; [exact Hlog|discriminate]].
  destruct (netloc u); [|split; [exact Hlog|discriminate]].
  destruct (sql_bind (md_price md)); [|split; [exact Hlog|discriminate]].
  split; [exact Hlog|].
  simpl; intros resp H; injection H as <-; reflexivity.
Qed.

End AddFacts.

(* ================================================================= *)
(** * More on the flags, the listings and the external link *)

Lemma get_user_id_resolved (st st1 : world) (username : string)
    (user_id : option Z) (rows : list item_row) :
  get_user_id st username true = (st1, user_id) ->
  get_user_id (set_items st1 rows) username true
  = (set_items st1 rows, user_id).
Proof.
  intros Hgu; apply (get_user_id_again _ _ _ _ _ Hgu); reflexivity.
Qed.

Lemma sql_update_twice (cond : item_row -> bool) (f g : item_row -> item_row)
    (rows : list item_row) :
  (forall r, cond (f r) = cond r) ->
  sql_update cond g (sql_update cond f rows)
  = sql_update cond (fun r => g (f r)) rows.
Proof.
  intros Hc; unfold sql_update; rewrite map_map; apply map_ext.
  intros r; destruct (cond r) eqn:Hr; [rewrite Hc, Hr|rewrite Hr];
    reflexivity.
Qed.

(** X8: [archive_purchased] leaves no row of the user purchased and
    active, so a second call finds nothing to do: it reports count 0 and
    changes nothing. *)
Theorem archive_purchased_twice (st st1 : world) (username : string)
    (r : result response) :
  archive_purchased st username = (st1, r) ->
  archive_purchased st1 username
  = (st1, Ok (Response 200 (PDict [("status", PStr "archived");
                                   ("count", PInt 0)]))).
Proof.
  unfold archive_purchased at 1.
  destruct (get_user_id st username true) as [st0 user_id] eqn:Hgu.
  intros H; inversion H; subst; clear H.
  unfold archive_purchased; rewrite (get_user_id_resolved _ _ _ _ _ Hgu).
  simpl items.
  assert (Hdone : forall x,
            In x (sql_update (to_archive user_id) (set_archived true)
                             (items st0)) ->
            to_archive user_id x = false).
  { intros x Hx; unfold sql_update in Hx.
    apply in_map_iff in Hx as [y [<- _]].
    destruct (to_archive user_id y) eqn:Hy; [|exact Hy].
    unfold to_archive; simpl; apply andb_false_r. }
  rewrite (sql_update_untouched _ _ _ Hdone).
  unfold rowcount.
  replace (filter (to_archive user_id) _) with (@nil item_row);
    [reflexivity|].
  symmetry; induction (sql_update _ _ _) as [|a l IH]; simpl;
    [reflexivity|].
  rewrite (Hdone a (or_introl eq_refl)); apply IH.
  intros x Hx; apply Hdone; right; exact Hx.
Qed.

Lemma purchased_request_state (b : bool) (st : world) (username : string)
    (url : option string) :
  fst ((if b then mark_purchased else unmark_purchased) st username url)
  = set_items (fst (get_user_id st username true))
      (sql_update (key_matches (snd (get_user_id st username true)) url)
                  (set_purchased b)
                  (items (fst (get_user_id st username true)))).
Proof.
  destruct b; unfold mark_purchased, unmark_purchased;
    destruct (get_user_id st username true); reflexivity.
Qed.

(** X9: of two successive [mark_purchased] / [unmark_purchased] requests
    for one key, the last one wins: the state is the one the second request
    alone would have produced.  In particular each is idempotent. *)
Theorem set_purchased_last_wins (b b' : bool) (st : world)
    (username : string) (url : option string) :
  let request (b : bool) := if b then mark_purchased else unmark_purchased in
  fst (request b' (fst (request b st username url)) username url)
  = fst (request b' st username url).
Proof.
  cbv beta zeta; rewrite !purchased_request_state.
  destruct (get_user_id st username true) as [st0 user_id] eqn:Hgu.
  simpl fst; simpl snd.
  rewrite (get_user_id_resolved _ _ _ _ _ Hgu); simpl.
  unfold set_items; simpl; f_equal.
  rewrite sql_update_twice by reflexivity.
  reflexivity.
Qed.

(** X10: an explicit restore is not idempotent: once it has answered
    "restored" for a key that has a row, every row of the key is active, and
    a second restore of the key is refused with "exists_active". *)
Theorem restore_item_twice_refused (st st0 st1 : world) (username : string)
    (url : option string) (user_id : option Z) (resp : response) :
  get_user_id st username true = (st0, user_id) ->
  (exists r, In r (items st) /\ key_matches user_id url r = true) ->
  restore_item st username url = (st1, Ok resp) ->
  response_status resp = Some "restored" ->
  restore_item st1 username url
  = (st1, Ok (status_only 400 "exists_active")).
Proof.
  intros Hgu [r [Hin Hk]]; unfold restore_item at 1; rewrite Hgu.
  destruct (get_user_id_keeps_items _ _ _ _ _ Hgu) as [Hi _].
  destruct (find (active_match user_id url) (items st0));
    intros H; inversion H; subst; clear H; intros H'; cbv in H';
    [discriminate H'|clear H'].
  unfold restore_item; rewrite (get_user_id_resolved _ _ _ _ _ Hgu).
  simpl items.
  destruct (find (active_match user_id url) _) eqn:Hf; [reflexivity|].
  exfalso.
  apply find_none with (x := reactivate r) in Hf.
  - unfold active_match in Hf.
    change (key_matches user_id url (reactivate r))
      with (key_matches user_id url r) in Hf.
    rewrite Hk in Hf; discriminate.
  - unfold sql_update; apply in_map_iff; exists r; rewrite Hk, Hi; auto.
Qed.

Lemma filter_split_perm (A : Type) (p q : A -> bool) (l : list A) :
  Permutation (filter (fun x => p x && negb (q x)) l
               ++ filter (fun x => p x && q x) l)
              (filter p l).
Proof.
  induction l as [|a l IH]; simpl; [constructor|].
  destruct (p a), (q a); simpl; auto.
  apply Permutation_sym, Permutation_cons_app, Permutation_sym, IH.
Qed.

(** X11: the two listings split the rows of the user: each of her rows
    is in the active listing when it is not archived and in the archive
    listing when it is, no row of another user is in either, and neither
    listing changes a row. *)
Theorem listings_split (st st1 : world) (username : string)
    (user_id : option Z) :
  get_user_id st username true = (st1, user_id) ->
  exists active archived,
    get_wishlist st username
    = (st1, Ok (Response 200 (PList (map item_dict active)))) /\
    get_archive_items st username
    = (st1, Ok (Response 200 (PList (map item_dict archived)))) /\
    Permutation (active ++ archived)
                (filter (owned_by user_id) (items st)) /\
    Forall (fun r => i_archived r = false) active /\
    Forall (fun r => i_archived r = true) archived /\
    items st1 = items st.
Proof.
  intros Hgu.
  destruct (get_user_id_keeps_items _ _ _ _ _ Hgu) as [Hi _].
  unfold get_wishlist, get_archive_items; rewrite Hgu.
  exists (select_items st1 user_id false), (select_items st1 user_id true).
  split; [reflexivity|]; split; [reflexivity|].
  unfold select_items; rewrite Hi; split; [|split; [|split]].
  - eapply Permutation_trans;
      [|apply (filter_split_perm _ (owned_by user_id) i_archived)].
    apply Permutation_app; apply Permutation_sym;
      (eapply Permutation_trans; [|apply Permutation_rev]);
      apply Permutation_refl' , filter_ext; intros r; unfold owned_by;
      destruct (i_archived r); reflexivity.
  - apply Forall_forall; intros r Hr; apply in_rev, filter_In in Hr.
    destruct Hr as [_ Hr]; apply andb_true_iff in Hr as [_ Hr].
    destruct (i_archived r); [discriminate|reflexivity].
  - apply Forall_forall; intros r Hr; apply in_rev, filter_In in Hr.
    destruct Hr as [_ Hr]; apply andb_true_iff in Hr as [_ Hr].
    destruct (i_archived r); [reflexivity|discriminate].
  - reflexivity.
Qed.




Lemma get_user_id_found (st st1 : world) (username : string)
    (user_id : option Z) :
  get_user_id st username true = (st1, user_id) ->
  exists u, find (fun x => (u_username x =? username)%string) (users st1)
            = Some u /\
            user_id = Some (u_id u) /\
            (In u (users st) \/
             u_id u = next_rowid (users_seq st) (map u_id (users st))).
Proof.
  unfold get_user_id.
  destruct (find _ (users st)) as [u|] eqn:Hf; intros H; injection H as <- <-.
  - exists u; split; [exact Hf|split; [reflexivity|]].
    left; apply find_some in Hf; apply Hf.
  - eexists; simpl; rewrite (find_app_none _ _ _ _ Hf); simpl.
    rewrite String.eqb_refl; split; [reflexivity|split; [reflexivity|]].
    right; reflexivity.
Qed.

Lemma next_rowid_pos (seq : Z) (ids : list Z) : 0 < next_rowid seq ids.
Proof.
  unfold next_rowid.
  assert (0 <= fold_right Z.max 0 ids)
    by (induction ids; simpl; lia).
  lia.
Qed.

(** X13: after [set_external_link], [get_user_info] for the same username
    answers 200 with the link just stored, for an existing user as for one
    the first request created. *)
Theorem external_link_round_trip (st : world) (username : string)
    (link : option string) :
  (forall u, In u (users st) -> u_id u <> 0) ->
  let st' := fst (set_external_link st username link) in
  get_user_info st' username
  = (st', Ok (Response 200 (PDict [("external_link", of_opt_str link)]))).
Proof.
  intros Hpos; unfold set_external_link.
  destruct (get_user_id st username true) as [st1 user_id] eqn:Hgu.
  destruct (get_user_id_found _ _ _ _ Hgu) as [u [Hfind [-> Horigin]]].
  assert (Hid : u_id u <> 0).
  { destruct Horigin as [Hin|Hnew]; [apply Hpos, Hin|].
    rewrite Hnew; pose proof (next_rowid_pos (users_seq st)
                                (map u_id (users st))); lia. }
  cbv zeta; unfold fst.
  set (g := fun x => if sql_eq_int (Some (u_id x)) (Some (u_id u))
                     then UserRow (u_id x) (u_username x) link else x).
  unfold get_user_info, get_user_id, set_users; cbn [users].
  rewrite find_map_stable, Hfind.
  2:{ intros x; unfold g; simpl; destruct (u_id x =? u_id u); reflexivity. }
  simpl option_map; cbv iota.
  assert (Hgu_id : u_id (g u) = u_id u)
    by (unfold g; simpl; destruct (u_id u =? u_id u); reflexivity).
  rewrite Hgu_id; unfold id_truthy.
  destruct (Z.eqb_spec (u_id u) 0) as [E|_]; [contradiction|].
  simpl negb; cbv iota.
  match goal with
  | |- context [find ?p ?l] => destruct (find p l) as [row|] eqn:Hrow
  end.
  - apply find_some in Hrow as [Hin Hcond].
    apply in_map_iff in Hin as [x [<- _]].
    unfold g in *; simpl in *.
    destruct (u_id x =? u_id u) eqn:E; simpl in *.
    + reflexivity.
    + rewrite E in Hcond; discriminate.
  - exfalso; apply find_none with (x := g u) in Hrow.
    + rewrite Hgu_id in Hrow; simpl in Hrow.
      rewrite Z.eqb_refl in Hrow; discriminate.
    + apply in_map; apply find_some in Hfind; apply Hfind.
Qed.

Lemma get_user_info_state (st : world) (username : string) :
  fst (get_user_info st username) = st.
Proof.
  pose proof (get_user_id_lookup_only st username) as Hst.
  unfold get_user_info.
  destruct (get_user_id st username false) as [st1 uid]; simpl in Hst.
  subst st1; destruct (negb (id_truthy uid)); [reflexivity|].
  destruct (find _ _); reflexivity.
Qed.

(** X14: the two lookups that resolve the username without creating it,
    [get_user_info] and the page route, never change the state, and for a
    username without a row both answer not-found. *)
Theorem lookup_routes_read_only (st : world) (username : string) :
  fst (get_user_info st username) = st /\
  fst (user_wishlist st username) = st /\
  (~ In username (map u_username (users st)) ->
   snd (get_user_info st username) = Ok (Response 404 (PDict [])) /\
   snd (user_wishlist st username) <> IndexHtml).
Proof.
  pose proof (get_user_id_lookup_only st username) as Hst.
  split; [|split].
  - apply get_user_info_state.
  - unfold user_wishlist.
    destruct (username =? "favicon.ico")%string; [reflexivity|].
    destruct (get_user_id st username false) as [st1 uid]; simpl in Hst.
    subst st1; destruct (negb (id_truthy uid)); reflexivity.
  - intros Hno; split.
    + rewrite (get_user_info_unknown st username Hno); reflexivity.
    + unfold user_wishlist, get_user_id.
      destruct (username =? "favicon.ico")%string; [discriminate|].
      rewrite find_none_all; [discriminate|].
      intros r Hr; apply String.eqb_neq; intros Heq; apply Hno.
      rewrite <- Heq; apply in_map, Hr.
Qed.

(* ================================================================= *)
(** * What a request can do to the tables *)

Lemma find_none_not_in (st : world) (username : string) :
  find (fun u => (u_username u =? username)%string) (users st) = None ->
  ~ In username (map u_username (users st)).
Proof.
  intros Hf Hin; apply in_map_iff in Hin as [u [Hn Hu]].
  apply find_none with (x := u) in Hf; [|exact Hu].
  rewrite Hn, String.eqb_refl in Hf; discriminate.
Qed.

(** Resolving a username leaves [users] alone or appends one row, under
    the next rowid, for a name the table did not have. *)
Lemma get_user_id_effect (st st1 : world) (username : string)
    (create : bool) (user_id : option Z) :
  get_user_id st username create = (st1, user_id) ->
  items st1 = items st /\ items_seq st1 = items_seq st /\
  fetched st1 = fetched st /\
  ((users st1 = users st /\ users_seq st1 = users_seq st) \/
   (~ In username (map u_username (users st)) /\
    users st1 = users st
                ++ [UserRow (next_rowid (users_seq st) (map u_id (users st)))
                            username None] /\
    users_seq st1 = next_rowid (users_seq st) (map u_id (users st)))).
Proof.
  unfold get_user_id.
  destruct (find _ (users st)) eqn:Hf; [|destruct create];
    intros H; injection H as <- <-; simpl; repeat split; auto.
  right; repeat split; try reflexivity.
  apply find_none_not_in, Hf.
Qed.

Section Effects.

Variable json_loads : string -> option pyval.
Variable http_get : list string -> string -> option string.
Variable html_parser : string -> soup.
Variable netloc : string -> option string.

Lemma add_item_effect (today : string) (st : world) (username : string)
    (url : option string) :
  let st' := fst (add_item json_loads http_get html_parser netloc today st
                    username url) in
  (st' = st \/
   exists st1 user_id,
     get_user_id st username true = (st1, user_id) /\
     users st' = users st1 /\ users_seq st' = users_seq st1) /\
  ((map item_key (items st') = map item_key (items st) /\
    items_seq st' = items_seq st) \/
   (exists row,
      items st' = items st ++ [row] /\
      i_id row = next_rowid (items_seq st) (map i_id (items st)) /\
      items_seq st' = i_id row /\
      exists u, In u (users st') /\ i_user_id row = Some (u_id u))) /\
  (fetched st' = fetched st \/
   exists u, url = Some u /\ fetched st' = u :: fetched st).
Proof.
  unfold add_item.
  destruct (str_truthy url) eqn:Hurl; simpl negb; cbv iota.
  2:{ simpl; auto. }
  destruct (get_user_id st username true) as [st1 user_id] eqn:Hgu.
  destruct (get_user_id_keeps_items _ _ _ _ _ Hgu) as [Hi [Hs Hf]].
  destruct (find (key_matches user_id url) (items st1)) as [row|].
  - assert (Hkeys : map item_key
                      (sql_update (fun r => i_id r =? i_id row)
                                  (reactivate_on today) (items st1))
                    = map item_key (items st)).
    { rewrite <- Hi; unfold sql_update; rewrite map_map; apply map_ext.
      intros r; destruct (i_id r =? i_id row); reflexivity. }
    destruct (i_archived row).
    + destruct (find _ (items (set_items _ _))); cbv zeta; simpl;
        (split; [right; eauto|]); (split; [left; auto|left; exact Hf]).
    + cbv zeta; simpl; split; [right; eauto|].
      rewrite Hi; auto.
  - destruct url as [u|]; [|discriminate].
    destruct (fetch_metadata _ _ _ st1 u) as [st2 res] eqn:Hfm.
    destruct (fetch_metadata_keeps_tables _ _ _ _ _ _ _ Hfm)
      as [Hu2 [Hus2 [Hi2 [Hs2 Hf2]]]].
    assert (Hkeep : (st2 = st \/
               exists st3 uid,
                 (st1, user_id) = (st3, uid) /\
                 users st2 = users st3 /\ users_seq st2 = users_seq st3) /\
              ((map item_key (items st2) = map item_key (items st) /\
                items_seq st2 = items_seq st) \/
               (exists row,
                  items st2 = items st ++ [row] /\
                  i_id row = next_rowid (items_seq st) (map i_id (items st)) /\
                  items_seq st2 = i_id row /\
                  exists x, In x (users st2) /\
                            i_user_id row = Some (u_id x))) /\
              (fetched st2 = fetched st \/
               exists u0, Some u = Some u0 /\
                          fetched st2 = u0 :: fetched st)).
    { split; [right; eauto|]; split.
      - left; rewrite Hi2, Hs2, Hi, Hs; auto.
      - right; exists u; rewrite Hf2, Hf; auto. }
    destruct res as [md|e]; [|exact Hkeep].
    destruct (netloc u); [|exact Hkeep].
    destruct (sql_bind (md_price md)); [|exact Hkeep].
    cbv zeta; simpl; split; [right; eauto|]; split.
    + right; eexists; rewrite Hi2, Hs2, Hi, Hs.
      split; [reflexivity|]; split; [reflexivity|]; split; [reflexivity|].
      destruct (get_user_id_in _ _ _ _ Hgu) as [x [Hx [-> _]]].
      exists x; rewrite Hu2; auto.
    + right; exists u; rewrite Hf2, Hf; auto.
Qed.

(** X15: only an add fetches, and at most once: every other request
    leaves the log of fetched urls as it is, and an add either leaves it or
    puts the url of the request in front. *)
Theorem only_add_fetches (today : string) (st : world) (req : request) :
  let st' := fst (handle json_loads http_get html_parser netloc today st
                    req) in
  fetched st' = fetched st \/
  exists username u,
    req = AddItem username (Some u) /\ fetched st' = u :: fetched st.
Proof.
  destruct req as [u | u | u url | u url | u url | u url | u | u url | u
                  | u link]; simpl.
  - unfold get_wishlist.
    destruct (get_user_id st u true) eqn:Hgu; simpl; left.
    apply (get_user_id_keeps_items _ _ _ _ _ Hgu).
  - unfold get_archive_items.
    destruct (get_user_id st u true) eqn:Hgu; simpl; left.
    apply (get_user_id_keeps_items _ _ _ _ _ Hgu).
  - destruct (add_item_effect today st u url) as [_ [_ [H|[x [-> H]]]]];
      [left; exact H|right; eauto].
  - unfold delete_item.
    destruct (get_user_id st u true) eqn:Hgu; simpl; left.
    apply (get_user_id_keeps_items _ _ _ _ _ Hgu).
  - unfold mark_purchased.
    destruct (get_user_id st u true) eqn:Hgu; simpl; left.
    apply (get_user_id_keeps_items _ _ _ _ _ Hgu).
  - unfold unmark_purchased.
    destruct (get_user_id st u true) eqn:Hgu; simpl; left.
    apply (get_user_id_keeps_items _ _ _ _ _ Hgu).
  - unfold archive_purchased.
    destruct (get_user_id st u true) eqn:Hgu; simpl; left.
    apply (get_user_id_keeps_items _ _ _ _ _ Hgu).
  - unfold restore_item.
    destruct (get_user_id st u true) eqn:Hgu.
    destruct (find _ _); simpl; left;
      apply (get_user_id_keeps_items _ _ _ _ _ Hgu).
  - left; rewrite (get_user_info_state st u); reflexivity.
  - unfold set_external_link.
    destruct (get_user_id st u true) eqn:Hgu; simpl; left.
    apply (get_user_id_keeps_items _ _ _ _ _ Hgu).
Qed.

(** What a request of the API does to [items]: it keeps the keys of all
    rows as they are, or it is a delete and keeps a sublist of the rows, or
    it is an add and appends one row, under the next rowid, owned by a user
    of the table. *)
Lemma handle_items_effect (today : string) (st : world) (req : request) :
  let st' := fst (handle json_loads http_get html_parser netloc today st
                    req) in
  (map item_key (items st') = map item_key (items st) /\
   items_seq st' = items_seq st) \/
  (exists username url p,
     req = DeleteItem username url /\
     items st' = filter p (items st) /\ items_seq st' = items_seq st) \/
  (exists username url row,
     req = AddItem username url /\
     items st' = items st ++ [row] /\
     i_id row = next_rowid (items_seq st) (map i_id (items st)) /\
     items_seq st' = i_id row /\
     exists u, In u (users st') /\ i_user_id row = Some (u_id u)).
Proof.
  assert (Hupd : forall cond f rows,
            (forall r, item_key (f r) = item_key r) ->
            map item_key (sql_update cond f rows) = map item_key rows).
  { intros cond f rows Hf; unfold sql_update; rewrite map_map.
    apply map_ext; intros r; destruct (cond r); [apply Hf|reflexivity]. }
  destruct req as [u | u | u url | u url | u url | u url | u | u url | u
                  | u link]; simpl.
  - unfold get_wishlist.
    destruct (get_user_id st u true) eqn:Hgu; simpl; left.
    destruct (get_user_id_keeps_items _ _ _ _ _ Hgu) as [-> [-> _]]; auto.
  - unfold get_archive_items.
    destruct (get_user_id st u true) eqn:Hgu; simpl; left.
    destruct (get_user_id_keeps_items _ _ _ _ _ Hgu) as [-> [-> _]]; auto.
  - destruct (add_item_effect today st u url) as [_ [[H|[row H]] _]];
      [left; exact H|right; right; exists u, url, row; auto].
  - unfold delete_item.
    destruct (get_user_id st u true) as [st1 uid] eqn:Hgu; simpl.
    destruct (get_user_id_keeps_items _ _ _ _ _ Hgu) as [-> [-> _]].
    right; left; unfold sql_delete; eauto 10.
  - unfold mark_purchased.
    destruct (get_user_id st u true) eqn:Hgu; simpl; left.
    destruct (get_user_id_keeps_items _ _ _ _ _ Hgu) as [-> [-> _]].
    rewrite Hupd; auto.
  - unfold unmark_purchased.
    destruct (get_user_id st u true) eqn:Hgu; simpl; left.
    destruct (get_user_id_keeps_items _ _ _ _ _ Hgu) as [-> [-> _]].
    rewrite Hupd; auto.
  - unfold archive_purchased.
    destruct (get_user_id st u true) eqn:Hgu; simpl; left.
    destruct (get_user_id_keeps_items _ _ _ _ _ Hgu) as [-> [-> _]].
    rewrite Hupd; auto.
  - unfold restore_item.
    destruct (get_user_id st u true) eqn:Hgu.
    destruct (get_user_id_keeps_items _ _ _ _ _ Hgu) as [Hi [Hs _]].
    destruct (find _ _); simpl; left; rewrite ?Hupd, Hi, Hs; auto.
  - left; rewrite (get_user_info_state st u); auto.
  - unfold set_external_link.
    destruct (get_user_id st u true) eqn:Hgu; simpl; left.
    destruct (get_user_id_keeps_items _ _ _ _ _ Hgu) as [-> [-> _]]; auto.
Qed.

(** X16: no request of the API but a delete removes a row, and none
    changes the id, the owner or the url of a row: after a request that is
    no delete, the rows are those of before, with their ids, owners and urls
    and in their order, followed by at most one new row, which only an add
    brings. *)
Theorem only_delete_removes_rows (today : string) (st : world)
    (req : request) :
  (forall username url, req <> DeleteItem username url) ->
  let st' := fst (handle json_loads http_get html_parser netloc today st
                    req) in
  exists added,
    map item_key (items st') = map item_key (items st) ++ added /\
    (List.length added <= 1)%nat /\
    (added <> [] -> exists username url, req = AddItem username url).
Proof.
  intros Hnodel; cbv zeta.
  destruct (handle_items_effect today st req)
    as [[Hk _]|[[u [url [p [Hreq _]]]]|[u [url [row [Hreq [Hi _]]]]]]].
  - exists []; rewrite app_nil_r; repeat split; auto.
    intros H; contradiction H; reflexivity.
  - exfalso; exact (Hnodel u url Hreq).
  - exists [item_key row]; rewrite Hi, map_app; repeat split; simpl; auto.
    intros _; eauto.
Qed.

(** What a request of the API does to [users]: the ids and names stay, or
    one row is appended, under the next rowid, for the username of the
    request, which had no row. *)
Lemma handle_users_effect (today : string) (st : world) (req : request) :
  let st' := fst (handle json_loads http_get html_parser netloc today st
                    req) in
  (map user_key (users st') = map user_key (users st) /\
   users_seq st' = users_seq st) \/
  (~ In (request_username req) (map u_username (users st)) /\
   map user_key (users st')
   = map user_key (users st)
     ++ [(next_rowid (users_seq st) (map u_id (users st)),
          request_username req)] /\
   users_seq st' = next_rowid (users_seq st) (map u_id (users st))).
Proof.
  assert (Hres : forall u st1 uid (us : list user_row) (sq : Z),
            get_user_id st u true = (st1, uid) ->
            map user_key us = map user_key (users st1) ->
            sq = users_seq st1 ->
            (map user_key us = map user_key (users st) /\
             sq = users_seq st) \/
            (~ In u (map u_username (users st)) /\
             map user_key us
             = map user_key (users st)
               ++ [(next_rowid (users_seq st) (map u_id (users st)), u)] /\
             sq = next_rowid (users_seq st) (map u_id (users st)))).
  { intros u st1 uid us sq Hgu Hus ->.
    destruct (get_user_id_effect _ _ _ _ _ Hgu)
      as [_ [_ [_ [[Hu Hq]|[Hno [Hu Hq]]]]]]; rewrite Hus, Hu, Hq.
    - left; auto.
    - right; rewrite map_app; auto. }
  destruct req as [u | u | u url | u url | u url | u url | u | u url | u
                  | u link]; simpl.
  - unfold get_wishlist.
    destruct (get_user_id st u true) eqn:Hgu; simpl.
    eapply Hres; eauto.
  - unfold get_archive_items.
    destruct (get_user_id st u true) eqn:Hgu; simpl.
    eapply Hres; eauto.
  - destruct (add_item_effect today st u url)
      as [[->|[st1 [uid [Hgu [Hu Hq]]]]] _]; [left; auto|].
    eapply Hres; [exact Hgu|rewrite Hu; reflexivity|exact Hq].
  - unfold delete_item.
    destruct (get_user_id st u true) eqn:Hgu; simpl.
    eapply Hres; eauto.
  - unfold mark_purchased.
    destruct (get_user_id st u true) eqn:Hgu; simpl.
    eapply Hres; eauto.
  - unfold unmark_purchased.
    destruct (get_user_id st u true) eqn:Hgu; simpl.
    eapply Hres; eauto.
  - unfold archive_purchased.
    destruct (get_user_id st u true) eqn:Hgu; simpl.
    eapply Hres; eauto.
  - unfold restore_item.
    destruct (get_user_id st u true) eqn:Hgu.
    destruct (find _ _); simpl; eapply Hres; eauto.
  - left; rewrite (get_user_info_state st u); auto.
  - unfold set_external_link.
    destruct (get_user_id st u true) as [st1 uid] eqn:Hgu; simpl.
    eapply Hres; [exact Hgu| |reflexivity].
    rewrite map_map; apply map_ext; intros r; simpl.
    destruct uid as [v|]; [|reflexivity].
    destruct (u_id r =? v); reflexivity.
Qed.

End Effects.

(* ================================================================= *)
(** * The administrator's endpoints and runs of requests *)

(** A DELETE keeps a column unique that was unique. *)
Lemma filter_keeps_unique (Row Key : Type) (key : Row -> Key)
    (keep : Row -> bool) :
  forall rows : list Row,
  NoDup (map key rows) -> NoDup (map key (filter keep rows)).
Proof.
  intros rows; induction rows as [|row rows IH]; simpl; intros Huniq.
  - constructor.
  - apply NoDup_cons_iff in Huniq as [Hfresh Hrest].
    destruct (keep row); simpl; [|exact (IH Hrest)].
    apply NoDup_cons_iff; split; [|exact (IH Hrest)].
    intros Hin; apply Hfresh.
    apply in_map_iff in Hin as [other [<- Hother]].
    apply filter_In in Hother as [Hother _]; apply in_map, Hother.
Qed.

Lemma keys_same_in (A K : Type) (key : A -> K) (l l' : list A) (x' : A) :
  map key l' = map key l -> In x' l' ->
  exists x, In x l /\ key x = key x'.
Proof.
  intros Hk Hin; apply (in_map key) in Hin; rewrite Hk in Hin.
  apply in_map_iff in Hin as [x [Hx Hin]]; eauto.
Qed.

Lemma usernames_of_keys (l : list user_row) :
  map u_username l = map snd (map user_key l).
Proof. rewrite map_map; reflexivity. Qed.

Lemma user_ids_of_keys (l : list user_row) :
  map u_id l = map fst (map user_key l).
Proof. rewrite map_map; reflexivity. Qed.

(** What [admin_delete_user] does when it deletes. *)
Lemma admin_delete_user_effect (session : bool) (st : world)
    (username : option string) :
  let st' := fst (admin_delete_user session st username) in
  st' = st \/
  exists row,
    session = true /\
    find (fun u => sql_eq_text (u_username u) username) (users st)
    = Some row /\
    users st' = filter (fun u => negb (u_id u =? u_id row)) (users st) /\
    items st' = filter (fun r => negb (sql_eq_int (i_user_id r)
                                                  (Some (u_id row))))
                       (items st) /\
    users_seq st' = users_seq st /\ items_seq st' = items_seq st /\
    fetched st' = fetched st.
Proof.
  unfold admin_delete_user.
  destruct session; simpl; [|left; reflexivity].
  destruct (find _ (users st)) as [row|]; simpl; [|left; reflexivity].
  right; exists row; repeat split; reflexivity.
Qed.

Lemma admin_add_user_effect (session : bool) (st : world)
    (username : option string) :
  let st' := fst (admin_add_user session st username) in
  st' = st \/
  exists name, username = Some name /\
               st' = fst (get_user_id st name true).
Proof.
  unfold admin_add_user.
  destruct session; simpl; [|left; reflexivity].
  destruct username as [name|]; [|left; reflexivity].
  destruct (negb (str_truthy (Some name))); [left; reflexivity|].
  destruct (get_user_id st name true) eqn:Hgu; simpl.
  right; exists name; rewrite Hgu; auto.
Qed.

(** X19: [admin_delete_user] without a session answers 403 and for an
    unknown username 404, both without a change; for a known username in a
    session it removes the rows of [users] with the id of that user and,
    with them, every item that user owns, and nothing else. *)
Theorem admin_delete_user_cascade (st : world) (username : option string) :
  admin_delete_user false st username
  = (st, Ok (error_response 403 "Unauthorized")) /\
  (find (fun u => sql_eq_text (u_username u) username) (users st) = None ->
   admin_delete_user true st username
   = (st, Ok (error_response 404 "User not found"))) /\
  (forall row,
     find (fun u => sql_eq_text (u_username u) username) (users st)
     = Some row ->
     let st' := fst (admin_delete_user true st username) in
     snd (admin_delete_user true st username)
     = Ok (status_only 200 "deleted") /\
     (forall u, In u (users st') <->
                In u (users st) /\ u_id u <> u_id row) /\
     (forall r, In r (items st') <->
                In r (items st) /\ i_user_id r <> Some (u_id row)) /\
     (usernames_unique st ->
      forall name, username = Some name ->
                   ~ In name (map u_username (users st')))).
Proof.
  split; [reflexivity|]; split.
  - intros Hf; unfold admin_delete_user; simpl; rewrite Hf; reflexivity.
  - intros row Hf; unfold admin_delete_user; simpl; rewrite Hf; simpl.
    split; [reflexivity|]; split; [|split].
    + intros u; rewrite filter_In, negb_true_iff, Z.eqb_neq; reflexivity.
    + intros r; rewrite filter_In, negb_true_iff.
      split; intros [Hin Hr]; split; auto.
      * intros E; rewrite E in Hr; simpl in Hr.
        rewrite Z.eqb_refl in Hr; discriminate.
      * destruct (i_user_id r) as [o|]; [|reflexivity]; simpl.
        apply Z.eqb_neq; intros E; apply Hr; rewrite E; reflexivity.
    + intros Huniq name -> Hin.
      apply in_map_iff in Hin as [u [Hname Hu]].
      apply filter_In in Hu as [Hu Hid].
      apply negb_true_iff, Z.eqb_neq in Hid.
      apply find_some in Hf as [Hrow Hn]; simpl in Hn.
      apply String.eqb_eq in Hn.
      unfold usernames_unique in Huniq.
      apply Hid; f_equal.
      clear Hid; revert Huniq Hu Hrow; rewrite <- Hn in Hname.
      induction (users st) as [|a l IH]; simpl; [contradiction|].
      intros Hnd [->|Hu] [Hr|Hr]; inversion Hnd; subst; auto.
      * exfalso; apply H1; rewrite Hname; apply in_map, Hr.
      * exfalso; apply H1; rewrite <- Hname; apply in_map, Hu.
Qed.

Section Runs.

Variable json_loads : string -> option pyval.
Variable http_get : list string -> string -> option string.
Variable html_parser : string -> soup.
Variable netloc : string -> option string.
Variable admin_pass : option string.

(** An invariant of one request is an invariant of every run. *)
Lemma run_invariant (P : world -> Prop) :
  (forall s req, P (snd s) -> P (snd (step json_loads http_get html_parser netloc admin_pass s req))) ->
  forall reqs s, P (snd s) -> P (snd (run json_loads http_get html_parser netloc admin_pass s reqs)).
Proof.
  intros Hstep reqs; induction reqs as [|req reqs IH]; intros s Hs; simpl.
  - exact Hs.
  - apply IH, Hstep, Hs.
Qed.

(** What one request does to [users]. *)
Lemma step_users_effect (s : bool * world) (req : any_request) :
  let st := snd s in
  let st' := snd (step json_loads http_get html_parser netloc admin_pass s req) in
  (map user_key (users st') = map user_key (users st) /\
   users_seq st' = users_seq st) \/
  (exists name,
     ~ In name (map u_username (users st)) /\
     map user_key (users st')
     = map user_key (users st)
       ++ [(next_rowid (users_seq st) (map u_id (users st)), name)] /\
     users_seq st' = next_rowid (users_seq st) (map u_id (users st))) \/
  (exists p, users st' = filter p (users st) /\
             users_seq st' = users_seq st).
Proof.
  destruct s as [session st]; destruct req as [today req|req]; simpl.
  - destruct (handle_users_effect json_loads http_get html_parser netloc
                today st req) as [H|H]; [left; exact H|right; left; eauto].
  - destruct req as [password| |username|username]; simpl; auto.
    + destruct (admin_add_user_effect session st username)
        as [->|[name [-> ->]]]; [left; auto|].
      destruct (get_user_id st name true) as [st1 uid] eqn:Hgu; simpl.
      destruct (get_user_id_effect _ _ _ _ _ Hgu)
        as [_ [_ [_ [[-> ->]|[Hno [-> ->]]]]]]; [left; auto|].
      right; left; exists name; rewrite map_app; auto.
    + destruct (admin_delete_user_effect session st username)
        as [->|[row [_ [_ [Hu [_ [Hq _]]]]]]]; [left; auto|].
      right; right; eauto.
Qed.

(** What one request does to [items]. *)
Lemma step_items_effect (s : bool * world) (req : any_request) :
  let st := snd s in
  let st' := snd (step json_loads http_get html_parser netloc admin_pass s req) in
  (map item_key (items st') = map item_key (items st) /\
   items_seq st' = items_seq st) \/
  (exists p, items st' = filter p (items st) /\
             items_seq st' = items_seq st) \/
  (exists row,
     items st' = items st ++ [row] /\
     i_id row = next_rowid (items_seq st) (map i_id (items st)) /\
     items_seq st' = i_id row /\
     exists u, In u (users st') /\ i_user_id row = Some (u_id u)).
Proof.
  destruct s as [session st]; destruct req as [today req|req]; simpl.
  - destruct (handle_items_effect json_loads http_get html_parser netloc
                today st req)
      as [H|[[u [url [p [_ H]]]]|[u [url [row [_ H]]]]]]; eauto.
  - destruct req as [password| |username|username]; simpl; auto.
    + destruct (admin_add_user_effect session st username)
        as [->|[name [-> ->]]]; [left; auto|].
      destruct (get_user_id st name true) as [st1 uid] eqn:Hgu; simpl.
      destruct (get_user_id_keeps_items _ _ _ _ _ Hgu) as [-> [-> _]].
      left; auto.
    + destruct (admin_delete_user_effect session st username)
        as [->|[row [_ [_ [_ [Hi [_ [Hq _]]]]]]]]; [left; auto|].
      right; left; eauto.
Qed.

(** X17: usernames stay unique along every run of requests: the INSERT of
    [get_user_id] never meets the UNIQUE constraint. *)
Theorem run_keeps_usernames_unique (reqs : list any_request)
    (s : bool * world) :
  usernames_unique (snd s) -> usernames_unique (snd (run json_loads http_get html_parser netloc admin_pass s reqs)).
Proof.
  apply run_invariant; clear; intros s req; unfold usernames_unique.
  destruct (step_users_effect s req)
    as [[Hk _]|[[name [Hno [Hk _]]]|[p [Hu _]]]]; intros Hnd.
  - rewrite usernames_of_keys, Hk, <- usernames_of_keys; exact Hnd.
  - rewrite usernames_of_keys, Hk, map_app, <- usernames_of_keys; simpl.
    apply NoDup_app; [exact Hnd|repeat constructor; intros []|].
    intros x Hx [<-|[]]; exact (Hno Hx).
  - rewrite Hu; apply filter_keeps_unique, Hnd.
Qed.

(** X18: along every run of requests the rowids stay positive and at
    most the AUTOINCREMENT counter of their table. *)
Theorem run_keeps_seq_bounded (reqs : list any_request) (s : bool * world) :
  seq_bounded (snd s) -> seq_bounded (snd (run json_loads http_get html_parser netloc admin_pass s reqs)).
Proof.
  apply run_invariant; clear; intros s req [Hus Hit]; split.
  - destruct (step_users_effect s req)
      as [[Hk Hq]|[[name [Hno [Hk Hq]]]|[p [Hu Hq]]]]; intros u Hu';
      rewrite Hq.
    + destruct (keys_same_in _ _ user_key _ _ u Hk Hu') as [x [Hx Hkey]].
      injection Hkey as Hid _; rewrite <- Hid; apply Hus, Hx.
    + apply (in_map user_key) in Hu'; rewrite Hk in Hu'.
      pose proof (next_rowid_pos (users_seq (snd s))
                    (map u_id (users (snd s)))) as Hpos.
      apply in_app_or in Hu' as [Hin|[Heq|[]]].
      * apply in_map_iff in Hin as [x [Hkey Hx]].
        injection Hkey as Hid _; rewrite <- Hid.
        specialize (Hus x Hx); unfold next_rowid in *; lia.
      * injection Heq as Hid _; rewrite <- Hid; lia.
    + rewrite Hu in Hu'; apply filter_In in Hu' as [Hin _]; apply Hus, Hin.
  - destruct (step_items_effect s req)
      as [[Hk Hq]|[[p [Hi Hq]]|[row [Hi [Hid [Hq _]]]]]]; intros r Hr.
    + rewrite Hq.
      destruct (keys_same_in _ _ item_key _ _ r Hk Hr) as [x [Hx Hkey]].
      injection Hkey as Hid _ _; rewrite <- Hid; apply Hit, Hx.
    + rewrite Hq; rewrite Hi in Hr; apply filter_In in Hr as [Hin _].
      apply Hit, Hin.
    + rewrite Hq, Hid; rewrite Hi in Hr.
      pose proof (next_rowid_pos (items_seq (snd s))
                    (map i_id (items (snd s)))) as Hpos.
      apply in_app_or in Hr as [Hin|[<-|[]]].
      * specialize (Hit r Hin); unfold next_rowid in *; lia.
      * rewrite Hid; lia.
Qed.

(** X20: along every run of requests every item belongs to a user of the
    table: an add stores the id of the row it resolved, and the
    administrator's delete takes the items of a user away with her. *)
Theorem run_keeps_no_orphans (reqs : list any_request) (s : bool * world) :
  no_orphans (snd s) ->
  no_orphans (snd (run json_loads http_get html_parser netloc admin_pass s reqs)).
Proof.
  apply run_invariant; clear; intros [session st] req Hno.
  assert (Hgrow : forall st', 
            (exists ks, map user_key (users st')
                        = map user_key (users st) ++ ks) ->
            forall r, In r (items st) ->
            exists u, In u (users st') /\ i_user_id r = Some (u_id u)).
  { intros st' [ks Hk] r Hr; destruct (Hno r Hr) as [u [Hu Ho]].
    assert (Hin : In (user_key u) (map user_key (users st')))
      by (rewrite Hk; apply in_or_app; left; apply in_map, Hu).
    apply in_map_iff in Hin as [u' [Hkey Hu']].
    injection Hkey as Hid _; exists u'; rewrite Hid; auto. }
  destruct req as [today req|[password| |username|username]];
    try exact Hno.
  - (* a request of the API *)
    pose proof (handle_users_effect json_loads http_get html_parser netloc
                  today st req) as Hu.
    pose proof (handle_items_effect json_loads http_get html_parser netloc
                  today st req) as Hi.
    simpl in *.
    set (st' := fst (handle _ _ _ _ today st req)) in *.
    assert (Hks : exists ks, map user_key (users st')
                             = map user_key (users st) ++ ks).
    { destruct Hu as [[Hk _]|[_ [Hk _]]].
      - exists []; rewrite app_nil_r; exact Hk.
      - eexists; exact Hk. }
    intros r Hr.
    destruct Hi as [[Hk _]|[[u [url [p [_ [Hp _]]]]]
                           |[u [url [row [_ [Ha [_ [_ Hown]]]]]]]]].
    + destruct (keys_same_in _ _ item_key _ _ r Hk Hr) as [x [Hx Hkey]].
      injection Hkey as _ Ho _; rewrite <- Ho; apply (Hgrow st' Hks x Hx).
    + rewrite Hp in Hr; apply filter_In in Hr as [Hr _].
      apply (Hgrow st' Hks r Hr).
    + rewrite Ha in Hr; apply in_app_or in Hr as [Hr|[<-|[]]].
      * apply (Hgrow st' Hks r Hr).
      * exact Hown.
  - (* the administrator adds a user *)
    simpl.
    destruct (admin_add_user_effect session st username)
      as [->|[name [-> ->]]]; [exact Hno|].
    destruct (get_user_id st name true) as [st1 uid] eqn:Hgu; simpl.
    destruct (get_user_id_effect _ _ _ _ _ Hgu)
      as [Hi [_ [_ [[Hu _]|[_ [Hu _]]]]]]; intros r Hr; rewrite Hi in Hr.
    + rewrite Hu; apply Hno, Hr.
    + apply (Hgrow st1); [|exact Hr].
      eexists; rewrite Hu, map_app; reflexivity.
  - (* the administrator deletes a user *)
    simpl.
    destruct (admin_delete_user_effect session st username)
      as [->|[row [_ [_ [Hu [Hi _]]]]]]; [exact Hno|].
    intros r Hr; rewrite Hi in Hr; apply filter_In in Hr as [Hr Hkeep].
    destruct (Hno r Hr) as [u [Hin Ho]].
    exists u; split; [|exact Ho].
    rewrite Hu; apply filter_In; split; [exact Hin|].
    rewrite Ho in Hkeep; exact Hkeep.
Qed.

(** Along a run the counter of [users] never falls, and a row of [users]
    is a row of the first state, with its id and name, or has an id above
    the counter of the first state. *)
Lemma run_user_ids_fresh (reqs : list any_request) :
  forall (s : bool * world),
  let s' := run json_loads http_get html_parser netloc admin_pass s reqs in
  users_seq (snd s) <= users_seq (snd s') /\
  forall u, In u (users (snd s')) ->
            In (user_key u) (map user_key (users (snd s))) \/
            users_seq (snd s) < u_id u.
Proof.
  induction reqs as [|req reqs IH]; intros s; simpl.
  - split; [lia|]; intros u Hu; left; apply in_map, Hu.
  - specialize (IH (step json_loads http_get html_parser netloc admin_pass
                         s req)).
    cbv zeta in IH; destruct IH as [Hle Hall].
    pose proof (next_rowid_pos (users_seq (snd s)) (map u_id (users (snd s))))
      as _.
    assert (Hnext : users_seq (snd s)
                    < next_rowid (users_seq (snd s))
                                 (map u_id (users (snd s))))
      by (unfold next_rowid; lia).
    destruct (step_users_effect s req)
      as [[Hk Hq]|[[name [_ [Hk Hq]]]|[p [Hu Hq]]]]; rewrite Hq in *.
    + split; [exact Hle|]; intros u Hu.
      destruct (Hall u Hu) as [Hin|Hgt]; [left; rewrite <- Hk; exact Hin|].
      right; exact Hgt.
    + split; [lia|]; intros u Hu.
      destruct (Hall u Hu) as [Hin|Hgt]; [|right; lia].
      rewrite Hk in Hin; apply in_app_or in Hin as [Hin|[Heq|[]]].
      * left; exact Hin.
      * right; injection Heq as Hid _; rewrite <- Hid; exact Hnext.
    + split; [exact Hle|]; intros u Hu'.
      destruct (Hall u Hu') as [Hin|Hgt]; [|right; exact Hgt].
      left; rewrite Hu in Hin.
      apply in_map_iff in Hin as [x [<- Hx]].
      apply filter_In in Hx as [Hx _]; apply in_map, Hx.
Qed.

(** X21: the id of a deleted user is never given out again: after
    [admin_delete_user] has deleted a user, no run of requests brings a row
    of [users] with her id back, under whatever name, so the items of a
    later user can never be taken for hers. *)
Theorem deleted_user_id_never_reused (st : world) (username : option string)
    (row : user_row) (session : bool) (reqs : list any_request) :
  seq_bounded st ->
  find (fun u => sql_eq_text (u_username u) username) (users st) = Some row ->
  let st1 := fst (admin_delete_user true st username) in
  forall u,
    In u (users (snd (run json_loads http_get html_parser netloc admin_pass
                          (session, st1) reqs))) ->
    u_id u <> u_id row.
Proof.
  intros [Hus _] Hf st1 u Hu.
  destruct (admin_delete_user_effect true st username)
    as [Hsame|[row' [_ [Hf' [Husers [_ [Hq _]]]]]]].
  - exfalso; revert Hsame; unfold admin_delete_user; simpl; rewrite Hf; simpl.
    intros E; apply (f_equal users) in E; simpl in E.
    apply find_some in Hf as [Hrow _].
    assert (Hin : In row (filter (fun x => negb (u_id x =? u_id row))
                                 (users st))) by (rewrite E; exact Hrow).
    apply filter_In in Hin as [_ Hin]; rewrite Z.eqb_refl in Hin.
    discriminate.
  - rewrite Hf in Hf'; injection Hf' as <-.
    destruct (run_user_ids_fresh reqs (session, st1)) as [_ Hall].
    destruct (Hall u Hu) as [Hin|Hgt]; simpl in *; fold st1 in Husers, Hq.
    + rewrite Husers in Hin; apply in_map_iff in Hin as [x [Hkey Hx]].
      apply filter_In in Hx as [_ Hx].
      apply negb_true_iff, Z.eqb_neq in Hx.
      injection Hkey as Hid _; rewrite <- Hid; exact Hx.
    + rewrite Hq in Hgt; apply find_some in Hf as [Hrow _].
      specialize (Hus row Hrow); lia.
Qed.

(** X22: without a login that presents the configured password the
    administrator's requests do nothing: from a closed session, a run in
    which no login succeeds ends in a closed session and in the state the
    requests of the API alone would have produced.  When ADMIN_PASSWORD is
    unset or empty no login succeeds. *)
Theorem admin_needs_login (reqs : list any_request) :
  forall st,
  str_truthy admin_pass = false \/
  forallb (no_login admin_pass) reqs = true ->
  run json_loads http_get html_parser netloc admin_pass (false, st) reqs
  = run json_loads http_get html_parser netloc admin_pass (false, st)
        (filter (fun r => match r with Api _ _ => true | Admin _ => false end)
                reqs).
Proof.
  induction reqs as [|req reqs IH]; intros st Hlog; [reflexivity|].
  assert (Hhead : no_login admin_pass req = true).
  { destruct Hlog as [Hp|Hall].
    - destruct req as [t r|[p| |n|n]]; simpl; try reflexivity.
      rewrite Hp; reflexivity.
    - simpl in Hall; apply andb_true_iff in Hall; apply Hall. }
  assert (Htail : str_truthy admin_pass = false \/
                  forallb (no_login admin_pass) reqs = true).
  { destruct Hlog as [Hp|Hall]; [left; exact Hp|right].
    simpl in Hall; apply andb_true_iff in Hall; apply Hall. }
  destruct req as [today r|[password| |username|username]]; simpl.
  - apply IH, Htail.
  - unfold admin_page_post; simpl in Hhead.
    apply negb_true_iff in Hhead; rewrite Hhead; simpl.
    apply IH, Htail.
  - apply IH, Htail.
  - apply IH, Htail.
  - apply IH, Htail.
Qed.

End Runs.

(* ================================================================= *)
(** * A request touches the rows of its user only *)

Lemma key_matches_owned (user_id : option Z) (url : option string)
    (r : item_row) :
  key_matches user_id url r = true -> owned_by user_id r = true.
Proof.
  unfold key_matches, owned_by; intros H; apply andb_true_iff in H; apply H.
Qed.

Lemma to_archive_owned (user_id : option Z) (r : item_row) :
  to_archive user_id r = true -> owned_by user_id r = true.
Proof.
  unfold to_archive, owned_by; intros H.
  apply andb_true_iff in H as [H _]; apply andb_true_iff in H; apply H.
Qed.

Lemma others_after_update (user_id : option Z) (cond : item_row -> bool)
    (f : item_row -> item_row) (rows : list item_row) :
  (forall r, In r rows -> cond r = true -> owned_by user_id r = true) ->
  (forall r, owned_by user_id (f r) = owned_by user_id r) ->
  filter (fun r => negb (owned_by user_id r)) (sql_update cond f rows)
  = filter (fun r => negb (owned_by user_id r)) rows.
Proof.
  intros Hc Hf; induction rows as [|a rows IH]; simpl; [reflexivity|].
  rewrite IH by (intros r Hr; apply Hc; right; exact Hr).
  destruct (cond a) eqn:Ha; [|reflexivity].
  rewrite Hf, (Hc a (or_introl eq_refl) Ha); reflexivity.
Qed.

Lemma others_after_delete (user_id : option Z) (cond : item_row -> bool)
    (rows : list item_row) :
  (forall r, cond r = true -> owned_by user_id r = true) ->
  filter (fun r => negb (owned_by user_id r)) (sql_delete cond rows)
  = filter (fun r => negb (owned_by user_id r)) rows.
Proof.
  intros Hc; unfold sql_delete; induction rows as [|a rows IH]; simpl;
    [reflexivity|].
  destruct (cond a) eqn:Ha; simpl; rewrite IH; [|reflexivity].
  rewrite (Hc a Ha); reflexivity.
Qed.

Lemma same_id_same_row (rows : list item_row) (x y : item_row) :
  NoDup (map i_id rows) -> In x rows -> In y rows -> i_id x = i_id y ->
  x = y.
Proof.
  induction rows as [|a rows IH]; simpl; [contradiction|].
  intros Hnd [->|Hx] [->|Hy] Hid; inversion Hnd; subst; auto.
  - exfalso; apply H1; rewrite Hid; apply in_map, Hy.
  - exfalso; apply H1; rewrite <- Hid; apply in_map, Hx.
Qed.

Section Isolation.

Variable json_loads : string -> option pyval.
Variable http_get : list string -> string -> option string.
Variable html_parser : string -> soup.
Variable netloc : string -> option string.

Lemma add_item_keeps_others (today : string) (st st1 : world)
    (username : string) (url : option string) (user_id : option Z) :
  NoDup (map i_id (items st)) ->
  get_user_id st username true = (st1, user_id) ->
  filter (fun r => negb (owned_by user_id r))
         (items (fst (add_item json_loads http_get html_parser netloc today
                               st username url)))
  = filter (fun r => negb (owned_by user_id r)) (items st).
Proof.
  intros Hnd Hgu; unfold add_item.
  destruct (str_truthy url); simpl negb; cbv iota; [|reflexivity].
  rewrite Hgu.
  destruct (get_user_id_keeps_items _ _ _ _ _ Hgu) as [Hi _].
  destruct (find (key_matches user_id url) (items st1)) as [row|] eqn:Hfind.
  - destruct (i_archived row); [|simpl; rewrite Hi; reflexivity].
    assert (Hupd : filter (fun r => negb (owned_by user_id r))
                     (sql_update (fun r => i_id r =? i_id row)
                                 (reactivate_on today) (items st1))
                   = filter (fun r => negb (owned_by user_id r)) (items st)).
    { rewrite <- Hi; apply others_after_update; [|reflexivity].
      apply find_some in Hfind as [Hrow Hk].
      intros r Hr Hid; apply Z.eqb_eq in Hid.
      rewrite Hi in Hr, Hrow.
      rewrite (same_id_same_row _ _ _ Hnd Hr Hrow Hid).
      apply (key_matches_owned _ _ _ Hk). }
    destruct (find _ (items (set_items _ _))); simpl; exact Hupd.
  - destruct (fetch_metadata _ _ _ st1 _) as [st2 res] eqn:Hfm.
    destruct (fetch_metadata_keeps_tables _ _ _ _ _ _ _ Hfm)
      as [_ [_ [Hi2 _]]].
    assert (Hsame : filter (fun r => negb (owned_by user_id r)) (items st2)
                    = filter (fun r => negb (owned_by user_id r)) (items st))
      by (rewrite Hi2, Hi; reflexivity).
    destruct res as [md|e]; [|exact Hsame].
    destruct (netloc _); [|exact Hsame].
    destruct (sql_bind (md_price md)); [|exact Hsame].
    simpl; rewrite filter_app, Hsame; simpl.
    destruct (get_user_id_create_some _ _ _ _ Hgu) as [uid ->].
    unfold owned_by; simpl; rewrite Z.eqb_refl; simpl.
    apply app_nil_r.
Qed.

(** X24: a request of the API touches no row of another user: when the
    ids of the items are unique, the rows that do not belong to the user the
    request resolves are, after the request, the same rows in the same
    order. *)
Theorem handle_keeps_other_users_rows (today : string) (st st1 : world)
    (req : request) (user_id : option Z) :
  NoDup (map i_id (items st)) ->
  get_user_id st (request_username req) true = (st1, user_id) ->
  filter (fun r => negb (owned_by user_id r))
         (items (fst (handle json_loads http_get html_parser netloc today st
                             req)))
  = filter (fun r => negb (owned_by user_id r)) (items st).
Proof.
  intros Hnd Hgu.
  destruct (get_user_id_keeps_items _ _ _ _ _ Hgu) as [Hi _].
  destruct req as [u | u | u url | u url | u url | u url | u | u url | u
                  | u link]; simpl in *.
  - unfold get_wishlist; rewrite Hgu; simpl; rewrite Hi; reflexivity.
  - unfold get_archive_items; rewrite Hgu; simpl; rewrite Hi; reflexivity.
  - apply (add_item_keeps_others today _ _ _ _ _ Hnd Hgu).
  - unfold delete_item; rewrite Hgu; simpl; rewrite Hi.
    apply others_after_delete; intros r; apply key_matches_owned.
  - unfold mark_purchased; rewrite Hgu; simpl; rewrite Hi.
    apply others_after_update; [|reflexivity].
    intros r _; apply key_matches_owned.
  - unfold unmark_purchased; rewrite Hgu; simpl; rewrite Hi.
    apply others_after_update; [|reflexivity].
    intros r _; apply key_matches_owned.
  - unfold archive_purchased; rewrite Hgu; simpl; rewrite Hi.
    apply others_after_update; [|reflexivity].
    intros r _; apply to_archive_owned.
  - unfold restore_item; rewrite Hgu.
    destruct (find _ _); simpl; rewrite Hi; [reflexivity|].
    apply others_after_update; [|reflexivity].
    intros r _; apply key_matches_owned.
  - unfold get_user_info.
    pose proof (get_user_id_lookup_only st u) as Hst.
    destruct (get_user_id st u false) as [st2 uid]; simpl in Hst; subst st2.
    destruct (negb (id_truthy uid)); [reflexivity|].
    destruct (find _ _); reflexivity.
  - unfold set_external_link; rewrite Hgu; simpl; rewrite Hi; reflexivity.
Qed.

End Isolation.

(* ================================================================= *)
(** * More on the administrator's endpoints *)

Section RunOrder.

Variable json_loads : string -> option pyval.
Variable http_get : list string -> string -> option string.
Variable html_parser : string -> soup.
Variable netloc : string -> option string.
Variable admin_pass : option string.

(** X23: along every run of requests, of the API and of the
    administrator, the rowids increase strictly along both tables; so the
    ids stay unique and the first match of a scan is the oldest row. *)
Theorem run_keeps_rowid_order (reqs : list any_request) (s : bool * world) :
  rowid_ordered (snd s) ->
  rowid_ordered
    (snd (run json_loads http_get html_parser netloc admin_pass s reqs)).
Proof.
  apply run_invariant; clear; intros [session st] req Hst.
  destruct req as [today req|[password| |username|username]];
    try exact Hst; simpl.
  - apply handle_keeps_rowid_order; exact Hst.
  - destruct (admin_add_user_effect session st username)
      as [->|[name [-> ->]]]; [exact Hst|].
    destruct (get_user_id st name true) as [st1 uid] eqn:Hgu; simpl.
    exact (get_user_id_ordered _ _ _ _ _ Hgu Hst).
  - destruct (admin_delete_user_effect session st username)
      as [->|[row [_ [_ [Hu [Hi _]]]]]]; [exact Hst|].
    destruct Hst as [Hsu Hsi]; split.
    + rewrite Hu; apply sorted_map_filter, Hsu.
    + rewrite Hi; apply sorted_map_filter, Hsi.
Qed.

End RunOrder.

(** X25: in a session, [admin_add_user] with a non-empty username makes
    the username known and answers "added"; it touches no item, changes
    nothing when the username had a row, and changes nothing when it is
    repeated. *)
Theorem admin_add_user_creates_once (st : world) (name : string) :
  name <> EmptyString ->
  let st' := fst (admin_add_user true st (Some name)) in
  snd (admin_add_user true st (Some name))
  = Ok (Response 200 (PDict [("status", PStr "added");
                             ("username", PStr name)])) /\
  In name (map u_username (users st')) /\
  items st' = items st /\
  (In name (map u_username (users st)) -> st' = st) /\
  fst (admin_add_user true st' (Some name)) = st'.
Proof.
  intros Hname; unfold admin_add_user; cbn [negb].
  rewrite !(str_truthy_some _ Hname); cbn [negb]; cbv zeta.
  destruct (get_user_id st name true) as [st1 uid] eqn:Hgu; simpl.
  split; [reflexivity|]; split; [|split; [|split]].
  - destruct (get_user_id_in _ _ _ _ Hgu) as [u [Hu [_ Hn]]].
    rewrite <- Hn; apply in_map, Hu.
  - apply (get_user_id_keeps_items _ _ _ _ _ Hgu).
  - intros Hin; revert Hgu; unfold get_user_id.
    destruct (find _ (users st)) eqn:Hf.
    + intros H; injection H as <- _; reflexivity.
    + exfalso; exact (find_none_not_in _ _ Hf Hin).
  - rewrite (get_user_id_again _ _ st1 _ _ Hgu eq_refl); reflexivity.
Qed.

(* ================================================================= *)
(** * The further properties on the sample states *)

Lemma add_item_added_witness :
  exists row,
    items (fst (add_item sample_loads offline no_parser sample_netloc
                         "2024-02-02" world_archived "bob" (Some lamp_url)))
    = items world_archived ++ [row] /\
    i_url row = lamp_url /\ i_archived row = false.
Proof.
  destruct (add_item_added sample_loads offline no_parser sample_netloc
              "2024-02-02" world_archived _ "bob" (Some lamp_url) _
              eq_refl eq_refl)
    as [u [row [Hu [_ [Hi [_ [_ [Hurl [_ [_ [_ [Ha _]]]]]]]]]]]].
  injection Hu as <-.
  exists row; auto.
Defined.

Lemma add_item_raise_keeps_items_witness :
  let st' := fst (add_item sample_loads serves_bare_page parses_bare_page
                           sample_netloc "2024-02-02" world_archived "alice"
                           (Some "http://shop.example/vase")) in
  items st' = items world_archived /\
  items_seq st' = items_seq world_archived /\
  In "alice" (map u_username (users st')) /\
  exists u, Some "http://shop.example/vase" = Some u /\
            fetched st' = u :: fetched world_archived.
Proof.
  exact (add_item_raise_keeps_items sample_loads serves_bare_page
           parses_bare_page sample_netloc "2024-02-02" world_archived _
           "alice" (Some "http://shop.example/vase") KeyError eq_refl).
Defined.

Lemma restore_after_add_refused_witness :
  let st' := fst (add_item sample_loads offline no_parser sample_netloc
                           "2024-02-02" world_archived "bob"
                           (Some lamp_url)) in
  restore_item st' "bob" (Some lamp_url)
  = (st', Ok (status_only 400 "exists_active")).
Proof.
  exact (restore_after_add_refused sample_loads offline no_parser
           sample_netloc "2024-02-02" world_archived _ "bob" (Some lamp_url)
           _ eq_refl eq_refl).
Defined.

Lemma add_after_delete_fetches_witness :
  fetched (fst (add_item sample_loads offline no_parser sample_netloc
                         "2024-02-02"
                         (fst (delete_item world_archived "alice"
                                           (Some lamp_url)))
                         "alice" (Some lamp_url)))
  = [lamp_url].
Proof.
  assert (Hu : lamp_url <> EmptyString) by discriminate.
  destruct (add_after_delete_fetches sample_loads offline no_parser
              sample_netloc "2024-02-02" world_archived _ "alice" lamp_url _
              Hu eq_refl) as [uid [_ [_ [Hf _]]]].
  exact Hf.
Defined.

Lemma archive_purchased_twice_witness :
  let st1 := fst (archive_purchased world_abc "alice") in
  archive_purchased st1 "alice"
  = (st1, Ok (Response 200 (PDict [("status", PStr "archived");
                                   ("count", PInt 0)]))).
Proof.
  exact (archive_purchased_twice world_abc _ "alice" _ eq_refl).
Defined.

Lemma restore_item_twice_refused_witness :
  let st1 := fst (restore_item world_archived "alice" (Some lamp_url)) in
  restore_item st1 "alice" (Some lamp_url)
  = (st1, Ok (status_only 400 "exists_active")).
Proof.
  refine (restore_item_twice_refused world_archived world_archived _ "alice"
            (Some lamp_url) (Some 1) _ eq_refl _ eq_refl eq_refl).
  exists lamp_row; split; [right; left; reflexivity|reflexivity].
Defined.

Lemma listings_split_witness :
  exists active archived,
    get_wishlist world_abc "alice"
    = (world_abc, Ok (Response 200 (PList (map item_dict active)))) /\
    get_archive_items world_abc "alice"
    = (world_abc, Ok (Response 200 (PList (map item_dict archived)))) /\
    Permutation (active ++ archived)
                (filter (owned_by (Some 1)) (items world_abc)) /\
    Forall (fun r => i_archived r = false) active /\
    Forall (fun r => i_archived r = true) archived /\
    items world_abc = items world_abc.
Proof.
  exact (listings_split world_abc world_abc "alice" (Some 1) eq_refl).
Defined.



Lemma external_link_round_trip_witness :
  let st' := fst (set_external_link world_archived "bob"
                                    (Some "http://bob.example")) in
  get_user_info st' "bob"
  = (st', Ok (Response 200
                (PDict [("external_link", PStr "http://bob.example")]))).
Proof.
  refine (external_link_round_trip world_archived "bob"
            (Some "http://bob.example") _).
  intros u [<-|[]]; discriminate.
Defined.

Lemma lookup_routes_read_only_witness :
  snd (get_user_info world_archived "bob") = Ok (Response 404 (PDict [])) /\
  snd (user_wishlist world_archived "bob") <> IndexHtml.
Proof.
  refine (proj2 (proj2 (lookup_routes_read_only world_archived "bob")) _).
  simpl; intros [H|[]]; discriminate H.
Defined.

Lemma only_delete_removes_rows_witness :
  exists added,
    map item_key
        (items (fst (handle sample_loads offline no_parser sample_netloc
                            "2024-02-02" world_archived
                            (AddItem "bob" (Some lamp_url)))))
    = map item_key (items world_archived) ++ added /\
    (List.length added <= 1)%nat /\
    (added <> [] ->
     exists username url, AddItem "bob" (Some lamp_url) = AddItem username url).
Proof.
  refine (only_delete_removes_rows sample_loads offline no_parser
            sample_netloc "2024-02-02" world_archived
            (AddItem "bob" (Some lamp_url)) _).
  intros username url H; discriminate H.
Defined.

Lemma admin_delete_user_cascade_witness :
  snd (admin_delete_user true world_two_users (Some "alice"))
  = Ok (status_only 200 "deleted") /\
  forall r,
    In r (items (fst (admin_delete_user true world_two_users
                                        (Some "alice")))) <->
    In r (items world_two_users) /\ i_user_id r <> Some 1.
Proof.
  destruct (proj2 (proj2 (admin_delete_user_cascade world_two_users
                            (Some "alice"))) alice eq_refl)
    as [Hr [_ [Hi _]]].
  split; [exact Hr|exact Hi].
Defined.

Lemma world_two_users_unique : usernames_unique world_two_users.
Proof.
  unfold usernames_unique; simpl; repeat constructor; simpl;
    intuition discriminate.
Defined.

Lemma world_two_users_bounded : seq_bounded world_two_users.
Proof.
  split; simpl.
  - intros u [<-|[<-|[]]]; simpl; lia.
  - intros r [<-|[<-|[<-|[]]]]; simpl; lia.
Defined.

Lemma world_two_users_owned : no_orphans world_two_users.
Proof.
  intros r [<-|[<-|[<-|[]]]]; simpl.
  - exists alice; simpl; auto.
  - exists alice; simpl; auto.
  - exists bob; simpl; auto.
Defined.

Lemma world_two_users_ordered : rowid_ordered world_two_users.
Proof.
  split; simpl; repeat constructor; lia.
Defined.

Lemma run_keeps_usernames_unique_witness :
  usernames_unique
    (snd (run sample_loads offline no_parser sample_netloc sample_password
              (false, world_two_users) sample_requests)).
Proof.
  exact (run_keeps_usernames_unique sample_loads offline no_parser
           sample_netloc sample_password sample_requests
           (false, world_two_users) world_two_users_unique).
Defined.

Lemma run_keeps_seq_bounded_witness :
  seq_bounded
    (snd (run sample_loads offline no_parser sample_netloc sample_password
              (false, world_two_users) sample_requests)).
Proof.
  exact (run_keeps_seq_bounded sample_loads offline no_parser
           sample_netloc sample_password sample_requests
           (false, world_two_users) world_two_users_bounded).
Defined.

Lemma run_keeps_no_orphans_witness :
  no_orphans
    (snd (run sample_loads offline no_parser sample_netloc sample_password
              (false, world_two_users) sample_requests)).
Proof.
  exact (run_keeps_no_orphans sample_loads offline no_parser
           sample_netloc sample_password sample_requests
           (false, world_two_users) world_two_users_owned).
Defined.

Lemma run_keeps_rowid_order_witness :
  rowid_ordered
    (snd (run sample_loads offline no_parser sample_netloc sample_password
              (false, world_two_users) sample_requests)).
Proof.
  exact (run_keeps_rowid_order sample_loads offline no_parser
           sample_netloc sample_password sample_requests
           (false, world_two_users) world_two_users_ordered).
Defined.

Lemma deleted_user_id_never_reused_witness :
  Forall (fun u => u_id u <> 1)
         (users (snd (run sample_loads offline no_parser sample_netloc
                          sample_password
                          (true, fst (admin_delete_user true world_two_users
                                                        (Some "alice")))
                          [Admin (AdminAddUser (Some "alice"))]))).
Proof.
  apply Forall_forall.
  exact (deleted_user_id_never_reused sample_loads offline no_parser
           sample_netloc sample_password world_two_users (Some "alice") alice
           true [Admin (AdminAddUser (Some "alice"))]
           world_two_users_bounded eq_refl).
Defined.

Lemma admin_needs_login_witness :
  run sample_loads offline no_parser sample_netloc sample_password
      (false, world_two_users) locked_out_requests
  = run sample_loads offline no_parser sample_netloc sample_password
        (false, world_two_users)
        [Api "2024-02-02" (AddItem "carol" (Some lamp_url))].
Proof.
  exact (admin_needs_login sample_loads offline no_parser sample_netloc
           sample_password locked_out_requests world_two_users
           (or_intror eq_refl)).
Defined.

Lemma handle_keeps_other_users_rows_witness :
  filter (fun r => negb (owned_by (Some 1) r))
         (items (fst (handle sample_loads offline no_parser sample_netloc
                             "2024-02-02" world_two_users
                             (DeleteItem "alice" (Some lamp_url)))))
  = filter (fun r => negb (owned_by (Some 1) r)) (items world_two_users).
Proof.
  refine (handle_keeps_other_users_rows sample_loads offline no_parser
            sample_netloc "2024-02-02" world_two_users world_two_users
            (DeleteItem "alice" (Some lamp_url)) (Some 1) _ eq_refl).
  simpl; repeat constructor; simpl; intuition discriminate.
Defined.

Lemma admin_add_user_creates_once_witness :
  let st' := fst (admin_add_user true world_archived (Some "carol")) in
  snd (admin_add_user true world_archived (Some "carol"))
  = Ok (Response 200 (PDict [("status", PStr "added");
                             ("username", PStr "carol")])) /\
  In "carol" (map u_username (users st')) /\
  items st' = items world_archived /\
  (In "carol" (map u_username (users world_archived)) ->
   st' = world_archived) /\
  fst (admin_add_user true st' (Some "carol")) = st'.
Proof.
  refine (admin_add_user_creates_once world_archived "carol" _).
  discriminate.
Defined.

(** C7 at a url with an unclosed bracket, for a new user while the network
    is down: the add ends in [ValueError] and stores no row. *)
Lemma add_item_fetch_failure_unparsed_url_witness :
  add_item sample_loads offline no_parser checked_netloc "2024-02-02"
           world_archived "bob" (Some bracket_url)
  = (World [alice; UserRow 2 "bob" None] 2 [kettle_row; lamp_row] 2
           [bracket_url],
     Raise ValueError).
Proof.
  refine (add_item_fetch_failure_unparsed_url sample_loads offline no_parser
            checked_netloc "2024-02-02" world_archived _ "bob" bracket_url
            (Some 2) _ eq_refl eq_refl _ eq_refl).
  - discriminate.
  - intros r [<-|[<-|[]]]; reflexivity.
Defined.
